(** * The AlgoExpert scraper: test-case pairing and crawl orchestration

    A shallow embedding of [DataExtractor.extractTestCases],
    [DataExtractor.extractQuestionData], [Scraper.run] and
    [Scraper.initializeScrapedUrls] of scraper.js, with the JavaScript
    built-ins they rely on ([String.prototype.trim], [String.prototype.split],
    the three regular expressions, template-literal number formatting and
    [JSON.parse]).

    Strings are sequences of 8-bit code units (the Latin-1 range of
    JavaScript's UTF-16 code units). *)

From Stdlib Require Import String Ascii List Arith ZArith QArith Lia DecimalString.
From stdpp Require Import gmap strings list sorting.
Import ListNotations.

Set Warnings "-register-all,-clear-no-such-hyp".

Local Open Scope string_scope.
Local Open Scope list_scope.
Local Open Scope nat_scope.

(** ** JavaScript string built-ins *)

Module JS.

(** Line feed, the separator of urls_to_skip.txt. *)
Definition LF : ascii := ascii_of_nat 10.

(** [\s] of a regular expression and the white space removed by [trim],
    on the Latin-1 range: TAB, LF, VT, FF, CR, SPACE and NBSP. *)
Definition is_space (c : ascii) : bool :=
  let n := nat_of_ascii c in
  (n =? 9) || (n =? 10) || (n =? 11) || (n =? 12) || (n =? 13)
  || (n =? 32) || (n =? 160).

(** [[a-zA-Z]]. *)
Definition is_letter (c : ascii) : bool :=
  let n := nat_of_ascii c in
  ((65 <=? n) && (n <=? 90)) || ((97 <=? n) && (n <=? 122)).

Definition is_empty (s : string) : bool :=
  match s with EmptyString => true | String _ _ => false end.

Fixpoint trimStart (s : string) : string :=
  match s with
  | EmptyString => EmptyString
  | String c r => if is_space c then trimStart r else s
  end.

Fixpoint trimEnd (s : string) : string :=
  match s with
  | EmptyString => EmptyString
  | String c r =>
      let r' := trimEnd r in
      if is_space c && is_empty r' then EmptyString else String c r'
  end.

(** [s.trim()] *)
Definition trim (s : string) : string := trimEnd (trimStart s).

(** [/^[a-zA-Z]/.test(s)]: no multiline flag, so [^] is the start of [s]. *)
Definition test_starts_with_letter (s : string) : bool :=
  match s with
  | EmptyString => false
  | String c _ => is_letter c
  end.

(** [s.replace(/\s+/g, '-')]: every maximal run of white space becomes one
    dash.  [in_run] tells that the previous code unit was white space. *)
Fixpoint replace_spaces_go (in_run : bool) (s : string) : string :=
  match s with
  | EmptyString => EmptyString
  | String c r =>
      if is_space c
      then if in_run then replace_spaces_go true r
           else String "-" (replace_spaces_go true r)
      else String c (replace_spaces_go false r)
  end.

Definition replace_spaces_with_dash (s : string) : string :=
  replace_spaces_go false s.

(** [s.replace(/\n\s+/g, '\n')]: a line feed followed by at least one white
    space code unit is replaced, together with the whole run, by one line
    feed. *)
Inductive nl_mode := Plain | AfterLF | InRun.

Fixpoint replace_newline_spaces_go (m : nl_mode) (s : string) : string :=
  match s with
  | EmptyString => EmptyString
  | String c r =>
      match m with
      | Plain =>
          if Ascii.eqb c LF
          then String LF (replace_newline_spaces_go AfterLF r)
          else String c (replace_newline_spaces_go Plain r)
      | AfterLF | InRun =>
          if is_space c then replace_newline_spaces_go InRun r
          else String c (replace_newline_spaces_go Plain r)
      end
  end.

Definition replace_newline_spaces (s : string) : string :=
  replace_newline_spaces_go Plain s.

(** [s.split('\n')]: the empty string splits into one empty piece. *)
Fixpoint split_lines (s : string) : list string :=
  match s with
  | EmptyString => [EmptyString]
  | String c r =>
      if Ascii.eqb c LF then EmptyString :: split_lines r
      else match split_lines r with
           | x :: xs => String c x :: xs
           | [] => [String c EmptyString]
           end
  end.

(** [a.join(sep)] *)
Fixpoint join (sep : string) (l : list string) : string :=
  match l with
  | [] => EmptyString
  | [x] => x
  | x :: rest => x +:+ sep +:+ join sep rest
  end.

(** [`${n}`] for a non-negative integer. *)
Definition number_to_string (n : nat) : string :=
  NilEmpty.string_of_uint (Nat.to_uint n).

End JS.

(** ** JSON values and [JSON.parse] *)

Inductive json : Type :=
| JNull
| JBool (b : bool)
| JNumber (q : Q)
| JString (s : string)
| JArray (elements : list json)
| JObject (members : list (string * json)).

(** A JavaScript object literal with string keys, in insertion order. *)
Abbreviation jsobject := (list (string * json)).

(** [o[k] = v] *)
Fixpoint obj_set (k : string) (v : json) (o : jsobject) : jsobject :=
  match o with
  | [] => [(k, v)]
  | (k', v') :: rest =>
      if String.eqb k k' then (k, v) :: rest else (k', v') :: obj_set k v rest
  end.

(** [o[k]], [None] for [undefined]. *)
Fixpoint obj_get (k : string) (o : jsobject) : option json :=
  match o with
  | [] => None
  | (k', v) :: rest => if String.eqb k k' then Some v else obj_get k rest
  end.

(** An integer as a JSON number. *)
Definition JInt (z : Z) : json := JNumber (inject_Z z).

Module JSON.

(** The grammar of ECMA-404.  Numbers are kept as exact reduced rationals
    (JavaScript rounds them to doubles); a [\u] escape is accepted when it
    denotes a code unit below 256; the members of an object are kept in the
    order of their first occurrence (JavaScript lists integer-like keys
    first). *)

Definition DQUOTE : ascii := ascii_of_nat 34.

Definition is_ws (c : ascii) : bool :=
  let n := nat_of_ascii c in
  (n =? 32) || (n =? 9) || (n =? 10) || (n =? 13).

Fixpoint skip_ws (s : string) : string :=
  match s with
  | EmptyString => EmptyString
  | String c r => if is_ws c then skip_ws r else s
  end.

Definition digit_of (c : ascii) : option Z :=
  let n := nat_of_ascii c in
  if (48 <=? n) && (n <=? 57) then Some (Z.of_nat (n - 48)) else None.

Definition hex_of (c : ascii) : option nat :=
  let n := nat_of_ascii c in
  if (48 <=? n) && (n <=? 57) then Some (n - 48)
  else if (65 <=? n) && (n <=? 70) then Some (n - 55)
  else if (97 <=? n) && (n <=? 102) then Some (n - 87)
  else None.

(** A maximal run of decimal digits: its value continuing [acc], the number
    of digits read, and the rest. *)
Fixpoint digits (acc : Z) (count : nat) (s : string) : Z * nat * string :=
  match s with
  | EmptyString => (acc, count, s)
  | String c r =>
      match digit_of c with
      | Some d => digits (10 * acc + d)%Z (S count) r
      | None => (acc, count, s)
      end
  end.

Definition parse_exponent (s : string) : option (Z * string) :=
  match s with
  | String c r =>
      if Ascii.eqb c "e" || Ascii.eqb c "E" then
        let '(neg, r1) :=
          match r with
          | String c1 r1 =>
              if Ascii.eqb c1 "-" then (true, r1)
              else if Ascii.eqb c1 "+" then (false, r1) else (false, r)
          | EmptyString => (false, r)
          end in
        let '(e, n, r2) := digits 0 0 r1 in
        if n =? 0 then None else Some (if neg then (- e)%Z else e, r2)
      else Some (0%Z, s)
  | EmptyString => Some (0%Z, s)
  end.

Definition parse_fraction (s : string) : option (Z * nat * string) :=
  match s with
  | String c r =>
      if Ascii.eqb c "." then
        let '(f, n, r1) := digits 0 0 r in
        if n =? 0 then None else Some (f, n, r1)
      else Some (0%Z, 0, s)
  | EmptyString => Some (0%Z, 0, s)
  end.

Definition parse_number (s : string) : option (json * string) :=
  let '(neg, s1) :=
    match s with
    | String c r => if Ascii.eqb c "-" then (true, r) else (false, s)
    | EmptyString => (false, s)
    end in
  match s1 with
  | EmptyString => None
  | String c r =>
      match digit_of c with
      | None => None
      | Some d =>
          let '(i, s2) :=
            if (d =? 0)%Z then (0%Z, r)
            else let '(v, _, r') := digits d 1 r in (v, r') in
          match parse_fraction s2 with
          | None => None
          | Some (f, flen, s3) =>
              match parse_exponent s3 with
              | None => None
              | Some (e, s4) =>
                  let mant := (i * 10 ^ Z.of_nat flen + f)%Z in
                  let q := (inject_Z mant * Qpower (10 # 1) (e - Z.of_nat flen))%Q in
                  Some (JNumber (Qred (if neg then (- q)%Q else q)), s4)
              end
          end
      end
  end.

(** The characters of a string literal after its opening quote. *)
Fixpoint parse_chars (s : string) : option (string * string) :=
  match s with
  | EmptyString => None
  | String c r =>
      if Ascii.eqb c DQUOTE then Some (EmptyString, r)
      else if nat_of_ascii c <? 32 then None
      else if Ascii.eqb c "\" then
        match r with
        | String e r1 =>
            let simple (x : ascii) :=
              match parse_chars r1 with
              | Some (t, r2) => Some (String x t, r2)
              | None => None
              end in
            if Ascii.eqb e DQUOTE then simple DQUOTE
            else if Ascii.eqb e "\" then simple "\"%char
            else if Ascii.eqb e "/" then simple "/"%char
            else if Ascii.eqb e "b" then simple (ascii_of_nat 8)
            else if Ascii.eqb e "f" then simple (ascii_of_nat 12)
            else if Ascii.eqb e "n" then simple (ascii_of_nat 10)
            else if Ascii.eqb e "r" then simple (ascii_of_nat 13)
            else if Ascii.eqb e "t" then simple (ascii_of_nat 9)
            else if Ascii.eqb e "u" then
              match r1 with
              | String h1 (String h2 (String h3 (String h4 r2))) =>
                  match hex_of h1, hex_of h2, hex_of h3, hex_of h4 with
                  | Some a, Some b, Some c', Some d =>
                      let n := ((a * 16 + b) * 16 + c') * 16 + d in
                      if n <? 256 then
                        match parse_chars r2 with
                        | Some (t, r3) => Some (String (ascii_of_nat n) t, r3)
                        | None => None
                        end
                      else None
                  | _, _, _, _ => None
                  end
              | _ => None
              end
            else None
        | EmptyString => None
        end
      else
        match parse_chars r with
        | Some (t, r1) => Some (String c t, r1)
        | None => None
        end
  end.

Definition strip_prefix (p s : string) : option string :=
  if String.prefix p s
  then Some (String.substring (String.length p) (String.length s - String.length p) s)
  else None.

Fixpoint parse_value (fuel : nat) (s : string) {struct fuel} : option (json * string) :=
  match fuel with
  | 0 => None
  | S fuel' =>
      match skip_ws s with
      | EmptyString => None
      | String c r =>
          if Ascii.eqb c "[" then
            match skip_ws r with
            | String c1 r1 =>
                if Ascii.eqb c1 "]" then Some (JArray [], r1)
                else parse_elements fuel' r []
            | EmptyString => None
            end
          else if Ascii.eqb c "{" then
            match skip_ws r with
            | String c1 r1 =>
                if Ascii.eqb c1 "}" then Some (JObject [], r1)
                else parse_members fuel' r []
            | EmptyString => None
            end
          else if Ascii.eqb c DQUOTE then
            match parse_chars r with
            | Some (t, r1) => Some (JString t, r1)
            | None => None
            end
          else if Ascii.eqb c "n" then
            option_map (pair JNull) (strip_prefix "null" (String c r))
          else if Ascii.eqb c "t" then
            option_map (pair (JBool true)) (strip_prefix "true" (String c r))
          else if Ascii.eqb c "f" then
            option_map (pair (JBool false)) (strip_prefix "false" (String c r))
          else parse_number (String c r)
      end
  end
with parse_elements (fuel : nat) (s : string) (acc : list json) {struct fuel}
  : option (json * string) :=
  match fuel with
  | 0 => None
  | S fuel' =>
      match parse_value fuel' s with
      | None => None
      | Some (v, r) =>
          match skip_ws r with
          | String c r1 =>
              if Ascii.eqb c "," then parse_elements fuel' r1 (acc ++ [v])
              else if Ascii.eqb c "]" then Some (JArray (acc ++ [v]), r1)
              else None
          | EmptyString => None
          end
      end
  end
with parse_members (fuel : nat) (s : string) (acc : jsobject) {struct fuel}
  : option (json * string) :=
  match fuel with
  | 0 => None
  | S fuel' =>
      match skip_ws s with
      | String q r =>
          if Ascii.eqb q DQUOTE then
            match parse_chars r with
            | None => None
            | Some (k, r1) =>
                match skip_ws r1 with
                | String c r2 =>
                    if Ascii.eqb c ":" then
                      match parse_value fuel' r2 with
                      | None => None
                      | Some (v, r3) =>
                          match skip_ws r3 with
                          | String c3 r4 =>
                              if Ascii.eqb c3 "," then parse_members fuel' r4 (obj_set k v acc)
                              else if Ascii.eqb c3 "}" then Some (JObject (obj_set k v acc), r4)
                              else None
                          | EmptyString => None
                          end
                      end
                    else None
                | EmptyString => None
                end
            end
          else None
      | EmptyString => None
      end
  end.

(** [JSON.parse(text)]; [None] when it throws a SyntaxError. *)
Definition parse (text : string) : option json :=
  match parse_value (2 * String.length text + 2) text with
  | Some (v, r) => if JS.is_empty (skip_ws r) then Some v else None
  | None => None
  end.

End JSON.

(** ** Outcomes and the console *)

(** What an [async] function does: it resolves with a value or rejects (an
    exception propagates).  [OutOfFuel] is the model's own third outcome, for
    a loop that was not given enough iterations. *)
Inductive outcome (A : Type) : Type :=
| Done (a : A)
| Throw
| OutOfFuel.
Arguments Done {A} a.
Arguments Throw {A}.
Arguments OutOfFuel {A}.

(** The calls [Scraper.run] makes on its collaborators, in the order they are
    made, each with whether it resolved ([ok]), and the console lines that
    mark the path taken. *)
Inductive event : Type :=
| LogScraping (category : string) (questionNum : nat)
| LogSkipping
| GoToUrl (url : string) (ok : bool)
| ExtractQuestionData (ok : bool)
| WarnNoTitleOrDescription (url : string)
| CreateDirectory (dirPath : string) (ok : bool)
| ClickRunCode (ok : bool)
| QueryTestcaseData (ok : bool)
| ErrorParsingJSON
| SaveMarkdown (filePath content : string) (ok : bool)
| SaveJson (filePath : string) (data : list jsobject) (ok : bool)
| AppendToFile (filePath content : string) (ok : bool)
| ErrorProcessingURL (url : string).

(** ** DataExtractor.extractTestCases: the pairing loop *)

Record cursors : Type := { testNum : nat; expectIdx : nat; inputIdx : nat }.

(** [let testNum = 1; let expectIdx = 0; let inputIdx = 2;] *)
Definition initial_cursors : cursors :=
  {| testNum := 1; expectIdx := 0; inputIdx := 2 |}.

(** [testNum++], [expectIdx = inputIdx + 1; inputIdx = expectIdx + 2;] *)
Definition advance (c : cursors) : cursors :=
  {| testNum := S (testNum c);
     expectIdx := inputIdx c + 1;
     inputIdx := (inputIdx c + 1) + 2 |}.

Section Pairing.

(** [JSON.parse], [None] when it throws. *)
Variable JSON_parse : string -> option json.

(** The [try] block: it fills [jsonObject] in place, so what was assigned
    before an exception stays.  The boolean tells that the [catch] ran. *)
Definition try_parse_fields (expectedTxt inputTxt : string) : jsobject * bool :=
  let jsonObject : jsobject := [] in
  match JSON_parse inputTxt with
  | None => (jsonObject, true)
  | Some inputs =>
      let jsonObject := obj_set "inputs" inputs jsonObject in
      if JS.test_starts_with_letter expectedTxt
      then (obj_set "expected" (JString expectedTxt) jsonObject, false)
      else match JSON_parse expectedTxt with
           | Some expected => (obj_set "expected" expected jsonObject, false)
           | None => (jsonObject, true)
           end
  end.

Definition test_case_name (n : nat) : string :=
  "Test Case " +:+ JS.number_to_string n.

(** One iteration's record, and whether "Error parsing JSON:" was logged. *)
Definition make_testcase (expectedTxt inputTxt : string) (n : nat) : jsobject * bool :=
  let '(jsonObject, caught) := try_parse_fields expectedTxt inputTxt in
  (obj_set "name" (JString (test_case_name n)) jsonObject, caught).

Definition console_of (caught : bool) : list event :=
  if caught then [ErrorParsingJSON] else [].

(** The [while] loop over [allTestcaseEle], each element standing for the
    text of its nested node.  An index outside the array reads [undefined],
    on which [.locator] throws a TypeError outside the [try]. *)
Fixpoint pairing_loop (fuel : nat) (allTestcaseEle : list string) (c : cursors)
    (testcases : list jsobject) (console : list event)
  : outcome (list jsobject * list event) :=
  if inputIdx c <? length allTestcaseEle then
    match fuel with
    | 0 => OutOfFuel
    | S fuel' =>
        match allTestcaseEle !! expectIdx c, allTestcaseEle !! inputIdx c with
        | Some expectedTxt, Some inputTxt =>
            let '(jsonObject, caught) := make_testcase expectedTxt inputTxt (testNum c) in
            pairing_loop fuel' allTestcaseEle (advance c)
              (testcases ++ [jsonObject]) (console ++ console_of caught)
        | _, _ => Throw
        end
    end
  else Done (testcases, console).

Definition pair_testcases (allTestcaseEle : list string)
  : outcome (list jsobject * list event) :=
  pairing_loop (length allTestcaseEle) allTestcaseEle initial_cursors [] [].

(** The same pairing as a chunking iterator over windows of three fragments
    (expected, skipped, input), numbering from [n]. *)
Fixpoint pair_windows (n : nat) (fragments : list string) : list (jsobject * bool) :=
  match fragments with
  | expectedTxt :: _ :: inputTxt :: rest =>
      make_testcase expectedTxt inputTxt n :: pair_windows (S n) rest
  | _ => []
  end.

Definition windows_console (w : list (jsobject * bool)) : list event :=
  concat (map (fun p => console_of (snd p)) w).

End Pairing.

(** ** The scripted page and file system *)

(** What the browser page and the file system answer while one question is
    processed.  [None] stands for a rejected promise, except for
    [title_text], where it is the [null] that [getElementText] returns after
    catching the error itself. *)
Record script : Type := {
  goto_ok : bool;
  title_text : option string;
  paragraph_text : option (list string);
  example_text : option (list string);
  mkdir_ok : string -> bool;
  run_click_ok : bool;
  testcase_text : option (list string);
  write_ok : string -> bool;
  append_ok : bool
}.

Record CodingQuestion : Type := {
  title : string;
  description : string;
  exampleInput : string;
  exampleOutput : string
}.

Definition NL : string := String JS.LF EmptyString.

(** [removeNewlineSpaces] *)
Definition removeNewlineSpaces (text : string) : string :=
  JS.trim (JS.replace_newline_spaces text).

(** [extractQuestionData]: [text.trim()] on [null] and [.trim()] on a missing
    [pre] element throw a TypeError. *)
Definition extractQuestionData (sc : script) : outcome CodingQuestion :=
  match title_text sc with
  | None => Throw
  | Some text =>
      let title := JS.trim text in
      match paragraph_text sc with
      | None => Throw
      | Some paragraphsTextContent =>
          let description :=
            JS.join (NL +:+ NL) (map removeNewlineSpaces paragraphsTextContent) in
          match example_text sc with
          | None => Throw
          | Some preTagsTexContent =>
              match preTagsTexContent !! 0, preTagsTexContent !! 1 with
              | Some input, Some output =>
                  Done {| title := title; description := description;
                          exampleInput := JS.trim input;
                          exampleOutput := JS.trim output |}
              | _, _ => Throw
              end
          end
      end
  end.

(** [generateQuestionMarkdown] *)
Definition generateQuestionMarkdown (codingQuestion : CodingQuestion) : string :=
  NL +:+ "## " +:+ title codingQuestion +:+ NL +:+
  NL +:+
  description codingQuestion +:+ NL +:+
  NL +:+
  "### Sample Input" +:+ NL +:+
  "```" +:+ NL +:+
  exampleInput codingQuestion +:+ NL +:+
  "```" +:+ NL +:+
  NL +:+
  "### Sample Output" +:+ NL +:+
  "```" +:+ NL +:+
  exampleOutput codingQuestion +:+ NL +:+
  "```" +:+ NL.

(** [numPrefix + questionData.title.replace(/\s+/g, '-')] *)
Definition numPrefix (questionNum : nat) : string :=
  if 9 <? questionNum
  then JS.number_to_string questionNum +:+ "-"
  else "0" +:+ JS.number_to_string questionNum +:+ "-".

Definition dirName (questionNum : nat) (title : string) : string :=
  numPrefix questionNum +:+ JS.replace_spaces_with_dash title.

Definition LANGUAGES : list string := ["Golang"; "Java"; "JavaScript"; "Python"].

(** ** The state of a run and its monad *)

Record state : Type := {
  questionNum : nat;
  scrapedUrls : gset string;
  urls_to_skip : string;
  trace : list event
}.

Definition M (A : Type) : Type := state -> outcome A * state.

Definition ret {A : Type} (a : A) : M A := fun s => (Done a, s).

Definition bind {A B : Type} (m : M A) (k : A -> M B) : M B :=
  fun s =>
    match m s with
    | (Done a, s') => k a s'
    | (Throw, s') => (Throw, s')
    | (OutOfFuel, s') => (OutOfFuel, s')
    end.

Definition throw {A : Type} : M A := fun s => (Throw, s).

(** [try { body } catch (error) { handler }] *)
Definition try_catch (body handler : M unit) : M unit :=
  fun s =>
    match body s with
    | (Throw, s') => handler s'
    | r => r
    end.

Declare Scope run_scope.
Delimit Scope run_scope with run.
Notation "x <- m ;; k" := (bind m (fun x => k))
  (at level 100, m at next level, right associativity) : run_scope.
Notation "m ;; k" := (bind m (fun _ => k))
  (at level 100, right associativity) : run_scope.

Definition tell (evs : list event) : M unit :=
  fun s => (Done tt, {| questionNum := questionNum s; scrapedUrls := scrapedUrls s;
                        urls_to_skip := urls_to_skip s; trace := trace s ++ evs |}).

Definition get_questionNum : M nat := fun s => (Done (questionNum s), s).

Definition set_questionNum (n : nat) : M unit :=
  fun s => (Done tt, {| questionNum := n; scrapedUrls := scrapedUrls s;
                        urls_to_skip := urls_to_skip s; trace := trace s |}).

(** [questionNum++] *)
Definition incr_questionNum : M unit :=
  fun s => set_questionNum (S (questionNum s)) s.

(** [this.scrapedUrls.has(url)] *)
Definition scrapedUrls_has (url : string) : M bool :=
  fun s => (Done (bool_decide (url ∈ scrapedUrls s)), s).

(** [this.scrapedUrls.add(url)] *)
Definition scrapedUrls_add (url : string) : M unit :=
  fun s => (Done tt, {| questionNum := questionNum s;
                        scrapedUrls := {[url]} ∪ scrapedUrls s;
                        urls_to_skip := urls_to_skip s; trace := trace s |}).

(** [fs.appendFile('urls_to_skip.txt', content + '\n')] when it resolves. *)
Definition append_line (content : string) : M unit :=
  fun s => (Done tt, {| questionNum := questionNum s; scrapedUrls := scrapedUrls s;
                        urls_to_skip := urls_to_skip s +:+ content +:+ NL;
                        trace := trace s |}).

(** A call on a collaborator that resolves or rejects. *)
Definition call (e : bool -> event) (ok : bool) : M unit :=
  (tell [e ok] ;; if ok then ret tt else throw)%run.

(** [for (const x of l) { await f(x) }] *)
Fixpoint for_each {A : Type} (l : list A) (f : A -> M unit) : M unit :=
  match l with
  | [] => ret tt
  | x :: rest => (f x ;; for_each rest f)%run
  end.

Section Scraper.

Variable JSON_parse : string -> option json.
(** [path.join] and [configs.downloadBasePath]. *)
Variable path_join : list string -> string.
Variable downloadBasePath : string.

Local Open Scope run_scope.

Definition goToUrl (url : string) (sc : script) : M unit :=
  call (GoToUrl url) (goto_ok sc).

Definition createDirectory (dirPath : string) (sc : script) : M unit :=
  call (CreateDirectory dirPath) (mkdir_ok sc dirPath).

Definition saveMarkdown (filePath content : string) (sc : script) : M unit :=
  call (SaveMarkdown filePath content) (write_ok sc filePath).

Definition saveJson (filePath : string) (data : list jsobject) (sc : script) : M unit :=
  call (SaveJson filePath data) (write_ok sc filePath).

Definition appendToFile (filePath content : string) (sc : script) : M unit :=
  call (AppendToFile filePath content) (append_ok sc) ;;
  append_line content.

Definition lift {A : Type} (o : outcome A) : M A := fun s => (o, s).

Definition extractQuestionData_call (sc : script) : M CodingQuestion :=
  match extractQuestionData sc with
  | Done q => tell [ExtractQuestionData true] ;; ret q
  | o => tell [ExtractQuestionData false] ;; lift o
  end.

(** [extractTestCases]: the click on "Run Code", the expansion and the query
    of the fragments, then the pairing loop. *)
Definition extractTestCases (sc : script) : M (list jsobject) :=
  call ClickRunCode (run_click_ok sc) ;;
  match testcase_text sc with
  | None => tell [QueryTestcaseData false] ;; throw
  | Some allTestcaseEle =>
      tell [QueryTestcaseData true] ;;
      r <- lift (pair_testcases JSON_parse allTestcaseEle) ;;
      tell (snd r) ;;
      ret (fst r)
  end.

(** The body of the [try] block of [run]. *)
Definition scrape_question (category url : string) (sc : script) : M unit :=
  goToUrl url sc ;;
  questionData <- extractQuestionData_call sc ;;
  if JS.is_empty (title questionData) || JS.is_empty (description questionData)
  then
    tell [WarnNoTitleOrDescription url] ;;
    incr_questionNum
  else
    questionNum <- get_questionNum ;;
    let dirPath := path_join [downloadBasePath; category;
                              dirName questionNum (title questionData)] in
    let markdownPath := path_join [dirPath; "README.md"] in
    let jsonPath := path_join [dirPath; "testcases.json"] in
    createDirectory dirPath sc ;;
    for_each LANGUAGES (fun language =>
      createDirectory (path_join [dirPath; language]) sc) ;;
    let markdownContent := generateQuestionMarkdown questionData in
    testcases <- extractTestCases sc ;;
    saveMarkdown markdownPath markdownContent sc ;;
    saveJson jsonPath testcases sc ;;
    appendToFile "urls_to_skip.txt" url sc ;;
    scrapedUrls_add url ;;
    incr_questionNum.

(** One iteration of [while (questionQueue.length > 0)], after
    [questionQueue.shift()] returned [url]. *)
Definition scrape_next (category url : string) (sc : script) : M unit :=
  questionNum <- get_questionNum ;;
  tell [LogScraping category questionNum] ;;
  skip <- scrapedUrls_has url ;;
  if skip then
    tell [LogSkipping] ;;
    incr_questionNum
  else
    try_catch (scrape_question category url sc)
      (tell [ErrorProcessingURL url] ;; incr_questionNum).

(** The page and the file system of a run: the script met by the
    [questionNum]-th question of a category. *)
Definition world : Type := string -> nat -> script.

Fixpoint scrape_queue (w : world) (category : string) (questionQueue : list string)
  : M unit :=
  match questionQueue with
  | [] => ret tt
  | url :: rest =>
      questionNum <- get_questionNum ;;
      scrape_next category url (w category questionNum) ;;
      scrape_queue w category rest
  end.

(** [for (const category of questionsByCategory.keys())]: the map holds the
    categories in insertion order. *)
Fixpoint scrape_categories (w : world) (questionsByCategory : list (string * list string))
  : M unit :=
  match questionsByCategory with
  | [] => ret tt
  | (category, questionQueue) :: rest =>
      set_questionNum 1 ;;
      scrape_queue w category questionQueue ;;
      scrape_categories w rest
  end.

(** What [fs.readFile('urls_to_skip.txt')] does; on ENOENT the file is
    created, which resolves or not. *)
Inductive read_result : Type :=
| ReadData (data : string)
| ReadENOENT (create_ok : bool)
| ReadError.

(** [initializeScrapedUrls]: the set and the contents of the file. *)
Definition initializeScrapedUrls (r : read_result) : outcome (gset string * string) :=
  match r with
  | ReadData data =>
      if JS.is_empty data then Done (∅, data)
      else Done (list_to_set (map JS.trim (JS.split_lines data)), data)
  | ReadENOENT create_ok =>
      if create_ok then Done (∅, EmptyString) else Throw
  | ReadError => Throw
  end.

Definition start_state (scraped : gset string) (file : string) : state :=
  {| questionNum := 1; scrapedUrls := scraped; urls_to_skip := file; trace := [] |}.

(** The skip-list initialisation and the two loops of [run], over the map
    [getQuestionsByCategory] returned.  The awaits of [run] around them
    ([connectToExistingChrome], the navigation to the start page, the
    indexing, [closeBrowser]), each of which can reject, are in
    [Scraper_run]. *)
Definition run (r : read_result) (w : world)
    (questionsByCategory : list (string * list string)) : outcome unit * state :=
  match initializeScrapedUrls r with
  | Done (scraped, file) =>
      scrape_categories w questionsByCategory (start_state scraped file)
  | Throw => (Throw, start_state ∅ EmptyString)
  | OutOfFuel => (OutOfFuel, start_state ∅ EmptyString)
  end.

End Scraper.

(** ** Runs seen from a local state *)

(** A state as what a part of the run adds to it: the counter it leaves, the
    identifiers it commits, the lines it appends, the events it emits. *)
Definition local_state (n : nat) : state :=
  {| questionNum := n; scrapedUrls := ∅; urls_to_skip := EmptyString; trace := [] |}.

Definition extend (s d : state) : state :=
  {| questionNum := questionNum d;
     scrapedUrls := scrapedUrls d ∪ scrapedUrls s;
     urls_to_skip := urls_to_skip s +:+ urls_to_skip d;
     trace := trace s ++ trace d |}.

(** A computation that reads nothing of the state but the counter. *)
Definition framed {A : Type} (m : M A) : Prop :=
  forall s d, m (extend s d) = (fst (m d), extend s (snd (m d))).

(** An event that records a rejected call. *)
Definition failed (e : event) : bool :=
  match e with
  | GoToUrl _ ok | ExtractQuestionData ok | CreateDirectory _ ok
  | ClickRunCode ok | QueryTestcaseData ok | SaveMarkdown _ _ ok
  | SaveJson _ _ ok | AppendToFile _ _ ok => negb ok
  | _ => false
  end.

(** The events up to the first rejected call, included. *)
Fixpoint until_failure (l : list event) : list event :=
  match l with
  | [] => []
  | e :: rest => if failed e then [e] else e :: until_failure rest
  end.

(** The stage of the per-question state machine an event belongs to:
    queued, navigating, extracting the description, creating the
    directories, extracting the test cases, writing the files, committing,
    failed. *)
Definition stage (e : event) : nat :=
  match e with
  | LogScraping _ _ | LogSkipping => 0
  | GoToUrl _ _ => 1
  | ExtractQuestionData _ | WarnNoTitleOrDescription _ => 2
  | CreateDirectory _ _ => 3
  | ClickRunCode _ | QueryTestcaseData _ | ErrorParsingJSON => 4
  | SaveMarkdown _ _ _ | SaveJson _ _ _ => 5
  | AppendToFile _ _ _ => 6
  | ErrorProcessingURL _ => 7
  end.

Definition is_valid (q : CodingQuestion) : bool :=
  negb (JS.is_empty (title q) || JS.is_empty (description q)).

(** An event that creates a directory, writes a file or appends to the
    skip-list. *)
Definition is_persistence (e : event) : bool :=
  match e with
  | CreateDirectory _ _ | SaveMarkdown _ _ _ | SaveJson _ _ _ | AppendToFile _ _ _ => true
  | _ => false
  end.

(** A README is the rendering of a record with a title and a description. *)
Definition record_is_valid (e : event) : Prop :=
  match e with
  | SaveMarkdown _ content _ =>
      exists q, content = generateQuestionMarkdown q /\
                title q <> EmptyString /\ description q <> EmptyString
  | _ => True
  end.

Definition stage_le (a b : event) : Prop := stage a <= stage b.

(** The event [x] is among [evs] before position [j]. *)
Definition before (evs : list event) (j : nat) (x : event) : Prop :=
  exists i, i < j /\ evs !! i = Some x.

Section LocalRuns.

Variable JSON_parse : string -> option json.
Variable path_join : list string -> string.
Variable downloadBasePath : string.

(** The [try] block on the [n]-th question of a category, from a local
    state. *)
Definition question_run (category url : string) (sc : script) (n : nat)
  : outcome unit * state :=
  scrape_question JSON_parse path_join downloadBasePath category url sc (local_state n).


(** The directory of the [n]-th question of a category. *)
Definition question_dirPath (category : string) (n : nat) (q : CodingQuestion) : string :=
  path_join [downloadBasePath; category; dirName n (title q)].

(** The directories created for the [n]-th question of a category: its own
    and one per language. *)
Definition question_directories (category : string) (n : nat) (q : CodingQuestion)
  : list string :=
  let dirPath := question_dirPath category n q in
  dirPath :: map (fun language => path_join [dirPath; language]) LANGUAGES.

(** The calls the [try] block makes on a valid record when none rejects,
    each with the answer scripted for it. *)
Definition planned_calls (category url : string) (sc : script) (n : nat)
    (q : CodingQuestion) : list event :=
  let dirPath := question_dirPath category n q in
  let allTestcaseEle := default [] (testcase_text sc) in
  let windows := pair_windows JSON_parse 1 allTestcaseEle in
  [GoToUrl url (goto_ok sc); ExtractQuestionData true]
  ++ map (fun p => CreateDirectory p (mkdir_ok sc p))
       (dirPath :: map (fun language => path_join [dirPath; language]) LANGUAGES)
  ++ [ClickRunCode (run_click_ok sc);
      QueryTestcaseData (match testcase_text sc with Some _ => true | None => false end)]
  ++ windows_console windows
  ++ [SaveMarkdown (path_join [dirPath; "README.md"]) (generateQuestionMarkdown q)
        (write_ok sc (path_join [dirPath; "README.md"]));
      SaveJson (path_join [dirPath; "testcases.json"]) (map fst windows)
        (write_ok sc (path_join [dirPath; "testcases.json"]));
      AppendToFile "urls_to_skip.txt" url (append_ok sc)].

(** The calls planned for a question, and whether their success commits
    the identifier. *)
Definition plan (category url : string) (sc : script) (n : nat) : list event * bool :=
  match extractQuestionData sc with
  | Done q =>
      if is_valid q then (planned_calls category url sc n q, true)
      else ([GoToUrl url (goto_ok sc); ExtractQuestionData true;
             WarnNoTitleOrDescription url], false)
  | _ => ([GoToUrl url (goto_ok sc); ExtractQuestionData false], false)
  end.

(** The local state the plan leads to. *)
Definition plan_result (url : string) (n : nat) (p : list event * bool)
  : outcome unit * state :=
  if existsb failed (fst p)
  then (Throw, {| questionNum := n; scrapedUrls := ∅; urls_to_skip := EmptyString;
                  trace := until_failure (fst p) |})
  else (Done tt, {| questionNum := S n;
                    scrapedUrls := if snd p then {[url]} else ∅;
                    urls_to_skip := if snd p then url +:+ NL else EmptyString;
                    trace := fst p |}).

(** What one iteration of the queue loop emits on the [n]-th question, and
    whether it commits the identifier; [skip] tells that the identifier is
    in the set already. *)
Definition next_events (category url : string) (sc : script) (n : nat) (skip : bool)
  : list event :=
  LogScraping category n ::
  if skip then [LogSkipping]
  else
    let p := plan category url sc n in
    if existsb failed (fst p)
    then until_failure (fst p) ++ [ErrorProcessingURL url]
    else fst p.

Definition next_commits (category url : string) (sc : script) (n : nat) (skip : bool)
  : bool :=
  negb skip && snd (plan category url sc n)
  && negb (existsb failed (fst (plan category url sc n))).

End LocalRuns.

(** ** The skip-list across runs *)

Fixpoint contains_LF (s : string) : bool :=
  match s with
  | EmptyString => false
  | String c r => Ascii.eqb c JS.LF || contains_LF r
  end.

(** An identifier as the data model has it, a canonical URL: no white space
    around it and no line feed in it. *)
Definition canonical (url : string) : Prop :=
  JS.trim url = url /\ contains_LF url = false.

(** A skip-list file made of complete lines. *)
Definition terminated (file : string) : Prop :=
  file = EmptyString \/ exists g, file = g +:+ NL.

(** The set [initializeScrapedUrls] builds from the contents of the file. *)
Definition loaded (data : string) : gset string :=
  if JS.is_empty data then ∅
  else list_to_set (map JS.trim (JS.split_lines data)).

(** The resume invariant: every identifier of the set is a line of the file. *)
Definition resumable (s : state) : Prop :=
  terminated (urls_to_skip s) /\ scrapedUrls s ⊆ loaded (urls_to_skip s).

(** The trace of a queue whose identifiers are all skipped. *)
Fixpoint skipped_queue (category : string) (n : nat) (questionQueue : list string)
  : list event :=
  match questionQueue with
  | [] => []
  | _ :: rest => LogScraping category n :: LogSkipping :: skipped_queue category (S n) rest
  end.

Fixpoint skipped_run (questionsByCategory : list (string * list string)) : list event :=
  match questionsByCategory with
  | [] => []
  | (category, questionQueue) :: rest =>
      skipped_queue category 1 questionQueue ++ skipped_run rest
  end.

(** Every identifier of the catalog satisfies [P]. *)
Definition all_urls (P : string -> Prop) (questionsByCategory : list (string * list string))
  : Prop :=
  Forall (fun entry => Forall P (snd entry)) questionsByCategory.

(** The records of a pairing, without the console. *)
Definition testcases_of (o : outcome (list jsobject * list event)) : outcome (list jsobject) :=
  match o with
  | Done r => Done (fst r)
  | Throw => Throw
  | OutOfFuel => OutOfFuel
  end.

(** Two objects with the same value under every key. *)
Definition same_fields (o1 o2 : jsobject) : Prop :=
  forall k, obj_get k o1 = obj_get k o2.

(** The type sniff for the expected value as the specification words it:
    on the trimmed text. *)
Definition expected_on_trimmed (JSON_parse : string -> option json)
    (expectedTxt : string) : option json :=
  if JS.test_starts_with_letter (JS.trim expectedTxt)
  then Some (JString expectedTxt)
  else JSON_parse expectedTxt.

(** What the loop stores under [expected]: nothing once the input failed to
    parse, else the raw text when it starts with a letter, else its parse. *)
Definition expected_field (JSON_parse : string -> option json)
    (expectedTxt inputTxt : string) : option json :=
  match JSON_parse inputTxt with
  | None => None
  | Some _ =>
      if JS.test_starts_with_letter expectedTxt
      then Some (JString expectedTxt)
      else JSON_parse expectedTxt
  end.

(** A tuple whose [try] block ends in the [catch]. *)
Definition parse_fails (JSON_parse : string -> option json)
    (expectedTxt inputTxt : string) : bool :=
  match JSON_parse inputTxt with
  | None => true
  | Some _ =>
      if JS.test_starts_with_letter expectedTxt then false
      else match JSON_parse expectedTxt with Some _ => false | None => true end
  end.

(** "Only the offending field is left unset", as the specification words
    it: each field is set whenever its own fragment can be used. *)
Definition only_offending_unset (JSON_parse : string -> option json)
    (expectedTxt inputTxt : string) (r : jsobject) : Prop :=
  obj_get "inputs" r = JSON_parse inputTxt /\
  obj_get "expected" r =
    (if JS.test_starts_with_letter expectedTxt
     then Some (JString expectedTxt) else JSON_parse expectedTxt).


(** The number of tuples, read three by three, whose [try] block ends in
    the [catch]. *)
Fixpoint failing_tuples (JSON_parse : string -> option json) (fragments : list string) : nat :=
  match fragments with
  | expectedTxt :: _ :: inputTxt :: rest =>
      (if parse_fails JSON_parse expectedTxt inputTxt then 1 else 0)
      + failing_tuples JSON_parse rest
  | _ => 0
  end.

(** The example sequence of the specification, the records it announces
    (keys in the order the loop assigns them), and the same texts laid out
    as the loop reads them: expected, skipped, input. *)
Definition example_fragments : list string :=
  ["5"; "[1,2,3]"; "x"; "True"; "[4,5]"; "y"].

Definition example_records : list jsobject :=
  [ [("inputs", JArray [JInt 1; JInt 2; JInt 3]); ("expected", JInt 5);
     ("name", JString "Test Case 1")];
    [("inputs", JArray [JInt 4; JInt 5]); ("expected", JString "True");
     ("name", JString "Test Case 2")] ].

Definition example_fragments_input_last : list string :=
  ["5"; "x"; "[1,2,3]"; "True"; "y"; "[4,5]"].

Definition names_only : list jsobject :=
  [ [("name", JString "Test Case 1")]; [("name", JString "Test Case 2")] ].

(** ** A scripted run *)

(** A [path.join] for paths that need no normalisation. *)
Definition join_with_slash (segments : list string) : string := JS.join "/" segments.

(** A question page on which every call resolves. *)
Definition two_number_sum_page : script :=
  {| goto_ok := true;
     title_text := Some "  Two Number Sum ";
     paragraph_text := Some ["Find two numbers that sum up to the target."];
     example_text := Some ["array = [3, 5]"; "[3, 5]"];
     mkdir_ok := fun _ => true;
     run_click_ok := true;
     testcase_text := Some example_fragments_input_last;
     write_ok := fun _ => true;
     append_ok := true |}.

(** A page on which the click on "Run Code" is rejected. *)
Definition run_code_rejected : script :=
  {| goto_ok := true;
     title_text := title_text two_number_sum_page;
     paragraph_text := paragraph_text two_number_sum_page;
     example_text := example_text two_number_sum_page;
     mkdir_ok := fun _ => true;
     run_click_ok := false;
     testcase_text := None;
     write_ok := fun _ => true;
     append_ok := true |}.

(** A page without any paragraph: the description is empty. *)
Definition no_description_page : script :=
  {| goto_ok := true;
     title_text := Some "Two Number Sum";
     paragraph_text := Some [];
     example_text := example_text two_number_sum_page;
     mkdir_ok := fun _ => true;
     run_click_ok := true;
     testcase_text := Some example_fragments_input_last;
     write_ok := fun _ => true;
     append_ok := true |}.

Definition two_number_sum_url : string :=
  "https://www.algoexpert.io/questions/two-number-sum".

Definition one_question_catalog : list (string * list string) :=
  [("Arrays", [two_number_sum_url])].

Definition every_page_resolves : world := fun _ _ => two_number_sum_page.

(** ** The rest of the scraper *)

(** *** The earlier [extractTestCases]: no sniff on the expected text *)

Section EarlierPairing.

Variable JSON_parse : string -> option json.

(** The [try] block of the earlier version: both texts go to [JSON.parse]. *)
Definition try_parse_fields_earlier (expectedTxt inputTxt : string) : jsobject * bool :=
  let jsonObject : jsobject := [] in
  match JSON_parse inputTxt with
  | None => (jsonObject, true)
  | Some inputs =>
      let jsonObject := obj_set "inputs" inputs jsonObject in
      match JSON_parse expectedTxt with
      | Some expected => (obj_set "expected" expected jsonObject, false)
      | None => (jsonObject, true)
      end
  end.

Definition make_testcase_earlier (expectedTxt inputTxt : string) (n : nat)
  : jsobject * bool :=
  let '(jsonObject, caught) := try_parse_fields_earlier expectedTxt inputTxt in
  (obj_set "name" (JString (test_case_name n)) jsonObject, caught).

Fixpoint pairing_loop_earlier (fuel : nat) (allTestcaseEle : list string) (c : cursors)
    (testcases : list jsobject) (console : list event)
  : outcome (list jsobject * list event) :=
  if inputIdx c <? length allTestcaseEle then
    match fuel with
    | 0 => OutOfFuel
    | S fuel' =>
        match allTestcaseEle !! expectIdx c, allTestcaseEle !! inputIdx c with
        | Some expectedTxt, Some inputTxt =>
            let '(jsonObject, caught) :=
              make_testcase_earlier expectedTxt inputTxt (testNum c) in
            pairing_loop_earlier fuel' allTestcaseEle (advance c)
              (testcases ++ [jsonObject]) (console ++ console_of caught)
        | _, _ => Throw
        end
    end
  else Done (testcases, console).

Definition pair_testcases_earlier (allTestcaseEle : list string)
  : outcome (list jsobject * list event) :=
  pairing_loop_earlier (length allTestcaseEle) allTestcaseEle initial_cursors [] [].

End EarlierPairing.

(** The keys of a record that lacks its expected value. *)
Definition lacks_expected (r : jsobject) : bool :=
  match obj_get "expected" r with
  | None => true
  | Some _ => false
  end.

(** *** Shapes of strings *)

Definition starts_with_space (s : string) : bool :=
  match s with
  | EmptyString => false
  | String c _ => JS.is_space c
  end.

Fixpoint ends_with_space (s : string) : bool :=
  match s with
  | EmptyString => false
  | String c EmptyString => JS.is_space c
  | String _ r => ends_with_space r
  end.

Fixpoint contains_space (s : string) : bool :=
  match s with
  | EmptyString => false
  | String c r => JS.is_space c || contains_space r
  end.

(** No line feed is followed by a white space code unit. *)
Fixpoint no_space_after_LF (s : string) : bool :=
  match s with
  | EmptyString => true
  | String c r =>
      (negb (Ascii.eqb c JS.LF) || negb (starts_with_space r)) && no_space_after_LF r
  end.

(** *** DataExtractor.getQuestionsByCategory and selectors.questionByCategory *)

Definition CATEGORIES : list string :=
  ["Arrays"; "Binary Search Trees"; "Binary Trees"; "Dynamic Programming";
   "Famous Algorithms"; "Graphs"; "Greedy Algorithms"; "Heaps"; "Linked Lists";
   "Recursion"; "Searching"; "Sorting"; "Stacks"; "Strings"; "Tries"].

Definition BASE_URL : string := "https://www.algoexpert.io".

(** The selector of the links of a category. *)
Definition questionByCategory (category : string) : string :=
  "[id=" +:+ String JSON.DQUOTE category
  +:+ String JSON.DQUOTE "] .XfBN006G5IBT_e4fZRcU a".

(** [`${baseUrl}${href}`]; [getAttribute] gives [null] for a missing
    attribute, which a template literal prints as null. *)
Definition question_url (baseUrl : string) (href : option string) : string :=
  baseUrl +:+ default "null" href.

(** [map.set(k, v)] on a [Map] kept in insertion order. *)
Fixpoint Map_set {V : Type} (k : string) (v : V) (m : list (string * V))
  : list (string * V) :=
  match m with
  | [] => [(k, v)]
  | (k', v') :: rest =>
      if String.eqb k k' then (k, v) :: rest else (k', v') :: Map_set k v rest
  end.

(** The page as the indexer sees it: the [href] attributes of the elements a
    selector matches, in document order; [None] when [getElements] or
    [getAttribute] rejects. *)
Definition link_page : Type := string -> option (list (option string)).

Fixpoint index_categories (page : link_page) (baseUrl : string)
    (categories : list string) (questionsByCategory : list (string * list string))
  : outcome (list (string * list string)) :=
  match categories with
  | [] => Done questionsByCategory
  | category :: rest =>
      match page (questionByCategory category) with
      | None => Throw
      | Some questions =>
          let questionQueue := map (question_url baseUrl) questions in
          index_categories page baseUrl rest
            (Map_set category questionQueue questionsByCategory)
      end
  end.

Definition getQuestionsByCategory (page : link_page) (categories : list string)
    (baseUrl : string) : outcome (list (string * list string)) :=
  index_categories page baseUrl categories [].

(** *** Reading a trace *)

(** The file a sequence of [appendToFile] calls writes from nothing. *)
Fixpoint skip_lines (urls : list string) : string :=
  match urls with
  | [] => EmptyString
  | url :: rest => url +:+ NL +:+ skip_lines rest
  end.

(** The contents of the appends that resolved. *)
Fixpoint appended_urls (evs : list event) : list string :=
  match evs with
  | [] => []
  | AppendToFile _ content true :: rest => content :: appended_urls rest
  | _ :: rest => appended_urls rest
  end.

Definition is_scraping_line (e : event) : bool :=
  match e with
  | LogScraping _ _ => true
  | _ => false
  end.

(** One "Scraping" line per identifier, numbered from [n]. *)
Fixpoint visits_of_queue (category : string) (n : nat) (questionQueue : list string)
  : list event :=
  match questionQueue with
  | [] => []
  | _ :: rest => LogScraping category n :: visits_of_queue category (S n) rest
  end.

Fixpoint visits_of_catalog (questionsByCategory : list (string * list string))
  : list event :=
  match questionsByCategory with
  | [] => []
  | (category, questionQueue) :: rest =>
      visits_of_queue category 1 questionQueue ++ visits_of_catalog rest
  end.

(** What a stretch of a run, from [s] to [s'], did to the skip-list, read off
    the events [evs] it emitted: the file grew by the lines of the appends
    that resolved, the set by their identifiers, no identifier was appended
    twice or while in the set, and all of them come from [queue]. *)
Definition accounts (queue : list string) (s s' : state) (evs : list event) : Prop :=
  trace s' = trace s ++ evs /\
  urls_to_skip s' = urls_to_skip s +:+ skip_lines (appended_urls evs) /\
  scrapedUrls s' = list_to_set (appended_urls evs) ∪ scrapedUrls s /\
  NoDup (appended_urls evs) /\
  Forall (fun url => (url ∉ scrapedUrls s) /\ In url queue) (appended_urls evs).


(** The identifiers of a catalog, category after category. *)
Definition catalog_urls (questionsByCategory : list (string * list string)) : list string :=
  concat (map snd questionsByCategory).

(** A link page with two questions under Arrays and none elsewhere. *)
Definition arrays_only_page : link_page :=
  fun selector =>
    if String.eqb selector (questionByCategory "Arrays")
    then Some [Some "/questions/two-number-sum"; Some "/questions/validate-subsequence"]
    else Some [].

(** A page whose two paragraph elements are blank. *)
Definition blank_paragraphs_page : script :=
  {| goto_ok := true;
     title_text := Some "Two Number Sum";
     paragraph_text := Some [" "; EmptyString];
     example_text := Some ["array = [3, 5]"; "[3, 5]"];
     mkdir_ok := fun _ => true;
     run_click_ok := true;
     testcase_text := Some [];
     write_ok := fun _ => true;
     append_ok := true |}.

(** Pages that resolve, except that the second question of each category
    rejects the click on "Run Code". *)
Definition second_question_fails : world :=
  fun _ n => if n =? 2 then run_code_rejected else two_number_sum_page.

(** *** Scraper.run *)

Definition START_URL : string := "https://www.algoexpert.io/questions".

(** What the awaits of [run] outside its loops meet: whether
    [connectToExistingChrome], the navigation to the start page and
    [closeBrowser] resolve, and the page of links the indexer reads. *)
Record session : Type := {
  connect_ok : bool;
  start_ok : bool;
  links : link_page;
  close_ok : bool
}.

(** [run]: none of the awaits outside the loops is in a [try] block, so the
    rejection of any of them rejects [run]. *)
Definition Scraper_run (JSON_parse : string -> option json)
    (path_join : list string -> string) (downloadBasePath : string)
    (env : session) (r : read_result) (w : world) : outcome unit * state :=
  if connect_ok env then
    match initializeScrapedUrls r with
    | Done (scraped, file) =>
        (call (GoToUrl START_URL) (start_ok env) ;;
         questionsByCategory <-
           lift (getQuestionsByCategory (links env) CATEGORIES BASE_URL) ;;
         scrape_categories JSON_parse path_join downloadBasePath w questionsByCategory ;;
         if close_ok env then ret tt else throw)%run
          (start_state scraped file)
    | Throw => (Throw, start_state ∅ EmptyString)
    | OutOfFuel => (OutOfFuel, start_state ∅ EmptyString)
    end
  else (Throw, start_state ∅ EmptyString).

(** A state with the events [t] in front of its trace. *)
Definition after_events (t : list event) (s : state) : state :=
  {| questionNum := questionNum s; scrapedUrls := scrapedUrls s;
     urls_to_skip := urls_to_skip s; trace := t ++ trace s |}.

(** A session in which every await outside the loops resolves. *)
Definition arrays_only_session : session :=
  {| connect_ok := true; start_ok := true; links := arrays_only_page; close_ok := true |}.

(** A session whose browser does not close. *)
Definition close_rejected_session : session :=
  {| connect_ok := true; start_ok := true; links := arrays_only_page; close_ok := false |}.

(** *** Identifiers and files outside the data model *)

(** An identifier whose [href] ends with a space. *)
Definition trailing_space_url : string := two_number_sum_url +:+ " ".

Definition trailing_space_catalog : list (string * list string) :=
  [("Arrays", [trailing_space_url])].

(** A skip-list file whose last line has no line feed. *)
Definition unterminated_file : string :=
  "https://www.algoexpert.io/questions/three-number-sum".

(** * Properties *)

(** ** [JSON.parse] on the texts of the examples *)

Example parse_number_text : JSON.parse "5" = Some (JInt 5).
Proof. vm_compute. reflexivity. Qed.

Example parse_array_text :
  JSON.parse "[1,2,3]" = Some (JArray [JInt 1; JInt 2; JInt 3]).
Proof. vm_compute. reflexivity. Qed.

Example parse_decimal_text : JSON.parse " -12.50e1 " = Some (JInt (-125)).
Proof. vm_compute. reflexivity. Qed.

Example parse_letter_text : JSON.parse "x" = None.
Proof. vm_compute. reflexivity. Qed.

Example parse_word_text : JSON.parse " True" = None.
Proof. vm_compute. reflexivity. Qed.

(** ** The pairing loop *)

Section PairingFacts.

Variable JSON_parse : string -> option json.

Lemma by_threes {A : Type} (P : list A -> Prop) :
  P [] -> (forall a, P [a]) -> (forall a b, P [a; b]) ->
  (forall a b c l, P l -> P (a :: b :: c :: l)) ->
  forall l, P l.
Proof.
  intros H0 H1 H2 H3. fix IH 1.
  intros [|a [|b [|c l]]]; [apply H0 | apply H1 | apply H2 | apply H3, IH].
Qed.

Lemma length_three_more {A : Type} (a b c : A) (l : list A) :
  length (a :: b :: c :: l) / 3 = S (length l / 3).
Proof.
  cbn [length]. replace (S (S (S (length l)))) with (1 * 3 + length l) by lia.
  rewrite Nat.div_add_l by lia. reflexivity.
Qed.

Lemma pair_windows_length n fragments :
  length (pair_windows JSON_parse n fragments) = length fragments / 3.
Proof.
  revert n. induction fragments as [|a|a b|a b c l IH] using by_threes; intros n;
    try reflexivity.
  rewrite length_three_more. cbn [pair_windows length]. now rewrite IH.
Qed.

Lemma pair_windows_lookup fragments : forall n k,
  k < length fragments / 3 ->
  exists expectedTxt inputTxt,
    fragments !! (3 * k) = Some expectedTxt /\
    fragments !! (3 * k + 2) = Some inputTxt /\
    pair_windows JSON_parse n fragments !! k = Some (make_testcase JSON_parse expectedTxt inputTxt (n + k)).
Proof.
  induction fragments as [|a|a b|a b c l IH] using by_threes; intros n k Hk;
    try (cbn in Hk; lia).
  rewrite length_three_more in Hk. destruct k as [|k].
  - exists a, c. rewrite Nat.add_0_r. repeat split; reflexivity.
  - destruct (IH (S n) k) as (e & i & He & Hi & Hw); [lia|].
    exists e, i. replace (3 * S k) with (S (S (S (3 * k)))) by lia.
    replace (n + S k) with (S n + k) by lia. cbn [pair_windows].
    repeat split; assumption.
Qed.

(** Leaving the loop: [inputIdx] is not below the length. *)
Lemma pairing_loop_exit fuel allTestcaseEle c testcases console :
  length allTestcaseEle <= inputIdx c ->
  pairing_loop JSON_parse fuel allTestcaseEle c testcases console = Done (testcases, console).
Proof.
  intros H. apply Nat.ltb_ge in H.
  destruct fuel; cbn [pairing_loop]; now rewrite H.
Qed.

(** One iteration: both reads are in range, the record is pushed and the
    cursors advance. *)
Lemma pairing_loop_step fuel allTestcaseEle c testcases console expectedTxt inputTxt :
  allTestcaseEle !! expectIdx c = Some expectedTxt ->
  allTestcaseEle !! inputIdx c = Some inputTxt ->
  pairing_loop JSON_parse (S fuel) allTestcaseEle c testcases console
  = pairing_loop JSON_parse fuel allTestcaseEle (advance c)
      (testcases ++ [fst (make_testcase JSON_parse expectedTxt inputTxt (testNum c))])
      (console ++ console_of (snd (make_testcase JSON_parse expectedTxt inputTxt (testNum c)))).
Proof.
  intros He Hi. cbn [pairing_loop].
  assert (Hlt : inputIdx c < length allTestcaseEle)
    by (apply lookup_lt_is_Some; eauto).
  apply Nat.ltb_lt in Hlt. rewrite Hlt, He, Hi.
  now destruct (make_testcase JSON_parse expectedTxt inputTxt (testNum c)).
Qed.

(** The loop started at the boundary of a window, with enough fuel for what
    is left, appends exactly the windows of the rest. *)
Lemma pairing_loop_windows : forall fuel rest pre n testcases console,
  length rest <= fuel ->
  pairing_loop JSON_parse fuel (pre ++ rest)
    {| testNum := n; expectIdx := length pre; inputIdx := length pre + 2 |}
    testcases console
  = Done (testcases ++ map fst (pair_windows JSON_parse n rest),
          console ++ windows_console (pair_windows JSON_parse n rest)).
Proof.
  induction fuel as [|fuel IH]; intros rest pre n testcases console Hfuel;
    destruct rest as [|a [|b [|c rest]]]; try (cbn in Hfuel; lia).
  1-4: rewrite pairing_loop_exit
         by (rewrite length_app; cbn [length inputIdx]; lia);
       cbn; now rewrite !app_nil_r.
  rewrite (pairing_loop_step fuel _ _ _ _ a c).
  - unfold advance. cbn [inputIdx testNum].
    replace (pre ++ a :: b :: c :: rest) with ((pre ++ [a; b; c]) ++ rest)
      by (now rewrite <- app_assoc).
    replace (length pre + 2 + 1) with (length (pre ++ [a; b; c]))
      by (rewrite length_app; cbn; lia).
    rewrite IH by (cbn in Hfuel; lia).
    cbn [pair_windows map fst]. unfold windows_console. cbn [map concat snd].
    now rewrite <- !app_assoc.
  - cbn [expectIdx]. now apply list_lookup_middle.
  - cbn [inputIdx].
    replace (pre ++ a :: b :: c :: rest) with ((pre ++ [a; b]) ++ c :: rest)
      by (now rewrite <- app_assoc).
    apply list_lookup_middle. rewrite length_app. reflexivity.
Qed.

(** The loop always resolves, with the windows of the whole sequence. *)
Lemma pair_testcases_windows allTestcaseEle :
  pair_testcases JSON_parse allTestcaseEle
  = Done (map fst (pair_windows JSON_parse 1 allTestcaseEle),
          windows_console (pair_windows JSON_parse 1 allTestcaseEle)).
Proof.
  unfold pair_testcases, initial_cursors.
  apply (pairing_loop_windows (length allTestcaseEle) allTestcaseEle [] 1 [] []).
  lia.
Qed.

Lemma advance_iter k :
  Nat.iter k advance initial_cursors
  = {| testNum := S k; expectIdx := 3 * k; inputIdx := 3 * k + 2 |}.
Proof.
  induction k as [|k IH]; [reflexivity|].
  cbn [Nat.iter nat_rect]. change (nat_rect _ _ _ k) with (Nat.iter k advance initial_cursors).
  rewrite IH. unfold advance. cbn [testNum inputIdx]. f_equal; lia.
Qed.

Lemma obj_get_set_same k v o : obj_get k (obj_set k v o) = Some v.
Proof.
  induction o as [|[k' v'] o IH]; cbn.
  - now rewrite String.eqb_refl.
  - destruct (String.eqb k k') eqn:E; cbn; rewrite ?String.eqb_refl, ?E; auto.
Qed.

Lemma obj_get_set_other k k' v o :
  k <> k' -> obj_get k (obj_set k' v o) = obj_get k o.
Proof.
  intros Hne. induction o as [|[k2 v2] o IH]; cbn.
  - destruct (String.eqb k k') eqn:E; [apply String.eqb_eq in E; congruence|reflexivity].
  - destruct (String.eqb k' k2) eqn:E2; cbn.
    + apply String.eqb_eq in E2. subst k2.
      destruct (String.eqb k k') eqn:E; [apply String.eqb_eq in E; congruence|reflexivity].
    + now rewrite IH.
Qed.

Lemma make_testcase_name e i n :
  obj_get "name" (fst (make_testcase JSON_parse e i n))
  = Some (JString ("Test Case " +:+ JS.number_to_string n)).
Proof.
  unfold make_testcase. destruct (try_parse_fields JSON_parse e i) as [o caught].
  cbn [fst]. apply obj_get_set_same.
Qed.

Lemma make_testcase_expected e i n :
  obj_get "expected" (fst (make_testcase JSON_parse e i n))
  = expected_field JSON_parse e i.
Proof.
  unfold make_testcase, try_parse_fields, expected_field.
  destruct (JSON_parse i); [|reflexivity].
  destruct (JS.test_starts_with_letter e); [reflexivity|].
  destruct (JSON_parse e); reflexivity.
Qed.

Lemma make_testcase_caught e i n :
  snd (make_testcase JSON_parse e i n) = parse_fails JSON_parse e i.
Proof.
  unfold make_testcase, try_parse_fields, parse_fails.
  destruct (JSON_parse i); [|reflexivity].
  destruct (JS.test_starts_with_letter e); [reflexivity|].
  destruct (JSON_parse e); reflexivity.
Qed.

(** A tuple read at [3k] and [3k+2] is one of the [length / 3] windows. *)
Lemma tuple_in_range {A : Type} (l : list A) k x :
  l !! (3 * k + 2) = Some x -> k < length l / 3.
Proof.
  intros H. apply lookup_lt_Some in H.
  apply Nat.div_le_lower_bound; lia.
Qed.

(** The [k]-th record of the loop. *)
Lemma pair_testcases_lookup fragments k e i :
  fragments !! (3 * k) = Some e ->
  fragments !! (3 * k + 2) = Some i ->
  exists testcases console,
    pair_testcases JSON_parse fragments = Done (testcases, console) /\
    length testcases = length fragments / 3 /\
    testcases !! k = Some (fst (make_testcase JSON_parse e i (S k))).
Proof.
  intros He Hi. rewrite pair_testcases_windows. eexists _, _. split; [reflexivity|].
  split; [now rewrite length_map, pair_windows_length|].
  destruct (pair_windows_lookup fragments 1 k) as (e' & i' & He' & Hi' & Hw).
  { eapply tuple_in_range; eauto. }
  rewrite He in He'. rewrite Hi in Hi'. injection He' as <-. injection Hi' as <-.
  rewrite list_lookup_fmap, Hw. reflexivity.
Qed.

(** One "Error parsing JSON:" line per failing tuple, and nothing else. *)
Lemma windows_console_repeat fragments : forall n,
  windows_console (pair_windows JSON_parse n fragments)
  = repeat ErrorParsingJSON (failing_tuples JSON_parse fragments).
Proof.
  induction fragments as [|a|a b|a b c l IH] using by_threes; intros n;
    try reflexivity.
  cbn [pair_windows failing_tuples]. unfold windows_console in *.
  cbn [map concat]. rewrite IH, make_testcase_caught.
  now destruct (parse_fails JSON_parse a c).
Qed.

Lemma failing_tuples_positive fragments : forall k e i,
  fragments !! (3 * k) = Some e ->
  fragments !! (3 * k + 2) = Some i ->
  parse_fails JSON_parse e i = true ->
  0 < failing_tuples JSON_parse fragments.
Proof.
  induction fragments as [|a|a b|a b c l IH] using by_threes; intros k e i He Hi Hf.
  1-3: apply lookup_lt_Some in Hi; cbn in Hi; lia.
  cbn [failing_tuples]. destruct k as [|k].
  - cbn in He, Hi. injection He as <-. injection Hi as <-. rewrite Hf. lia.
  - replace (3 * S k) with (S (S (S (3 * k)))) in * by lia.
    cbn in He, Hi. specialize (IH k e i He Hi Hf). lia.
Qed.

Lemma make_testcase_on_failure e i n :
  parse_fails JSON_parse e i = true ->
  fst (make_testcase JSON_parse e i n)
  = match JSON_parse i with
    | None => [("name", JString (test_case_name n))]
    | Some inputs => [("inputs", inputs); ("name", JString (test_case_name n))]
    end.
Proof.
  unfold parse_fails, make_testcase, try_parse_fields.
  destruct (JSON_parse i); [|reflexivity].
  destruct (JS.test_starts_with_letter e); [discriminate|].
  destruct (JSON_parse e); [discriminate|reflexivity].
Qed.

End PairingFacts.

(** ** The state monad *)

Lemma string_app_cons (x : ascii) (a b : string) :
  String x a +:+ b = String x (a +:+ b).
Proof. reflexivity. Qed.

Lemma string_app_nil_l (a : string) : EmptyString +:+ a = a.
Proof. reflexivity. Qed.

Lemma string_app_assoc (a b c : string) : (a +:+ b) +:+ c = a +:+ (b +:+ c).
Proof.
  induction a as [|x a IH]; [reflexivity|].
  rewrite !string_app_cons. now f_equal.
Qed.

Lemma string_app_nil_r (a : string) : a +:+ EmptyString = a.
Proof.
  induction a as [|x a IH]; [reflexivity|].
  rewrite string_app_cons. now f_equal.
Qed.

Lemma extend_local s : extend s (local_state (questionNum s)) = s.
Proof.
  destruct s as [n set file tr]. unfold extend, local_state. cbn.
  now rewrite union_empty_l_L, string_app_nil_r, app_nil_r.
Qed.

Lemma framed_ret {A : Type} (a : A) : framed (ret a).
Proof. intros s d. reflexivity. Qed.

Lemma framed_throw {A : Type} : framed (@throw A).
Proof. intros s d. reflexivity. Qed.

Lemma framed_bind {A B : Type} (m : M A) (k : A -> M B) :
  framed m -> (forall a, framed (k a)) -> framed (bind m k).
Proof.
  intros Hm Hk s d. unfold bind. rewrite Hm.
  destruct (m d) as [[a| |] d']; cbn [fst snd]; [apply Hk|reflexivity|reflexivity].
Qed.

Lemma framed_try_catch (body handler : M unit) :
  framed body -> framed handler -> framed (try_catch body handler).
Proof.
  intros Hb Hh s d. unfold try_catch. rewrite Hb.
  destruct (body d) as [[a| |] d']; cbn [fst snd]; [reflexivity|apply Hh|reflexivity].
Qed.

Lemma framed_tell evs : framed (tell evs).
Proof. intros s d. unfold tell, extend. cbn. now rewrite app_assoc. Qed.

Lemma framed_get_questionNum : framed get_questionNum.
Proof. intros s d. reflexivity. Qed.

Lemma framed_set_questionNum n : framed (set_questionNum n).
Proof. intros s d. reflexivity. Qed.

Lemma framed_incr_questionNum : framed incr_questionNum.
Proof. intros s d. reflexivity. Qed.

Lemma framed_scrapedUrls_add url : framed (scrapedUrls_add url).
Proof.
  intros s d. unfold scrapedUrls_add, extend. cbn.
  now rewrite (assoc_L (∪)).
Qed.

Lemma framed_append_line content : framed (append_line content).
Proof.
  intros s d. unfold append_line, extend.
  cbn [fst snd questionNum scrapedUrls urls_to_skip trace].
  now rewrite string_app_assoc.
Qed.

Lemma framed_lift {A : Type} (o : outcome A) : framed (lift o).
Proof. intros s d. reflexivity. Qed.

Lemma framed_call e ok : framed (call e ok).
Proof.
  unfold call. apply framed_bind; [apply framed_tell|]. intros _.
  destruct ok; [apply framed_ret|apply framed_throw].
Qed.

Lemma framed_for_each {A : Type} (l : list A) (f : A -> M unit) :
  (forall x, framed (f x)) -> framed (for_each l f).
Proof.
  intros Hf. induction l as [|x l IH]; cbn [for_each]; [apply framed_ret|].
  apply framed_bind; [apply Hf|]. intros _. exact IH.
Qed.

Create HintDb framed.

#[local] Hint Resolve framed_ret framed_throw framed_tell framed_get_questionNum
  framed_set_questionNum framed_incr_questionNum framed_scrapedUrls_add
  framed_append_line framed_lift framed_call : framed.

Ltac framed_step :=
  first [ solve [auto with framed]
        | apply framed_for_each; intros ?
        | apply framed_bind; [|intros ?] ].

(** ** The skip-list file *)

Lemma split_lines_cons s : exists x xs, JS.split_lines s = x :: xs.
Proof.
  induction s as [|c r (x & xs & IH)]; cbn [JS.split_lines]; [eauto|].
  destruct (Ascii.eqb c JS.LF); [eauto|]. rewrite IH. eauto.
Qed.

Lemma split_lines_app a b :
  JS.split_lines (a +:+ String JS.LF b) = JS.split_lines a ++ JS.split_lines b.
Proof.
  induction a as [|c a IH]; [reflexivity|].
  rewrite string_app_cons. cbn [JS.split_lines].
  destruct (Ascii.eqb c JS.LF); [now rewrite IH|].
  rewrite IH. destruct (split_lines_cons a) as (x & xs & ->). reflexivity.
Qed.

Lemma split_lines_no_LF u : contains_LF u = false -> JS.split_lines u = [u].
Proof.
  induction u as [|c u IH]; [reflexivity|]. cbn [contains_LF JS.split_lines].
  intros H. apply orb_false_iff in H as [-> Hu]. now rewrite IH.
Qed.

Lemma is_empty_app_NL g : JS.is_empty (g +:+ NL) = false.
Proof. destruct g; reflexivity. Qed.

Lemma terminated_append file url : terminated (file +:+ url +:+ NL).
Proof. right. exists (file +:+ url). now rewrite string_app_assoc. Qed.

(** Appending the line of a canonical identifier to a file of complete
    lines keeps every line and adds the identifier. *)
Lemma loaded_append file url :
  terminated file -> canonical url ->
  {[url]} ∪ loaded file ⊆ loaded (file +:+ url +:+ NL).
Proof.
  intros Hfile [Htrim HLF].
  assert (Hne : JS.is_empty (file +:+ url +:+ NL) = false).
  { rewrite <- string_app_assoc. apply is_empty_app_NL. }
  unfold loaded at 2. rewrite Hne.
  assert (Hline : JS.split_lines (url +:+ NL) = [url; EmptyString]).
  { unfold NL. rewrite split_lines_app, (split_lines_no_LF url HLF). reflexivity. }
  destruct Hfile as [-> | [g ->]].
  - change (EmptyString +:+ url +:+ NL) with (url +:+ NL). rewrite Hline.
    unfold loaded. cbn [JS.is_empty map]. rewrite Htrim. set_solver.
  - unfold loaded. rewrite is_empty_app_NL.
    rewrite string_app_assoc. unfold NL in *.
    rewrite (string_app_cons JS.LF EmptyString), string_app_nil_l.
    rewrite 2!(split_lines_app g), Hline. cbn [JS.split_lines].
    rewrite !map_app. cbn [map]. rewrite Htrim.
    intros x Hx. apply elem_of_list_to_set.
    apply elem_of_union in Hx as [Hx | Hx].
    + apply elem_of_singleton in Hx as ->. set_solver.
    + apply elem_of_list_to_set in Hx. set_solver.
Qed.

(** ** One question *)

Section ScraperFacts.

Variable JSON_parse : string -> option json.
Variable path_join : list string -> string.
Variable downloadBasePath : string.

Lemma framed_appendToFile filePath content sc :
  framed (appendToFile filePath content sc).
Proof. unfold appendToFile. repeat framed_step. Qed.

Lemma framed_extractQuestionData_call sc : framed (extractQuestionData_call sc).
Proof.
  unfold extractQuestionData_call.
  destruct (extractQuestionData sc); repeat framed_step.
Qed.

Lemma framed_extractTestCases sc : framed (extractTestCases JSON_parse sc).
Proof.
  unfold extractTestCases. framed_step; [framed_step|].
  destruct (testcase_text sc); repeat framed_step.
Qed.

Lemma framed_scrape_question category url sc :
  framed (scrape_question JSON_parse path_join downloadBasePath category url sc).
Proof.
  unfold scrape_question, goToUrl, createDirectory, saveMarkdown, saveJson.
  framed_step; [framed_step|].
  apply framed_bind; [apply framed_extractQuestionData_call|intros questionData].
  destruct (JS.is_empty (title questionData) || JS.is_empty (description questionData));
    [repeat framed_step|].
  framed_step; [framed_step|].
  framed_step; [framed_step|].
  framed_step; [repeat framed_step|].
  framed_step; [apply framed_extractTestCases|].
  framed_step; [framed_step|].
  framed_step; [framed_step|].
  framed_step; [apply framed_appendToFile|].
  repeat framed_step.
Qed.

(** The [try] block adds to the state what it does from a local state. *)
Lemma scrape_question_local category url sc s :
  scrape_question JSON_parse path_join downloadBasePath category url sc s
  = (fst (question_run JSON_parse path_join downloadBasePath category url sc (questionNum s)),
     extend s (snd (question_run JSON_parse path_join downloadBasePath category url sc
                      (questionNum s)))).
Proof.
  unfold question_run.
  rewrite <- (extend_local s) at 1. apply framed_scrape_question.
Qed.

Lemma extractQuestionData_not_OutOfFuel sc : extractQuestionData sc <> OutOfFuel.
Proof.
  unfold extractQuestionData.
  repeat case_match; discriminate.
Qed.

Lemma windows_console_not_failed w : existsb failed (windows_console w) = false.
Proof.
  unfold windows_console. induction w as [|[o caught] w IH]; [reflexivity|].
  cbn [map concat snd]. rewrite existsb_app, IH. now destruct caught.
Qed.

Lemma until_failure_app l r :
  existsb failed l = false -> until_failure (l ++ r) = l ++ until_failure r.
Proof.
  induction l as [|e l IH]; [reflexivity|]. cbn [existsb app until_failure].
  intros H. apply orb_false_iff in H as [He Hl]. rewrite He. now rewrite IH.
Qed.

Ltac run_cbn :=
  cbn [fst snd existsb failed negb orb until_failure map app LANGUAGES
       questionNum scrapedUrls urls_to_skip trace for_each bind ret default id].

Ltac run_done := run_cbn; rewrite <- ?app_assoc; reflexivity.

Ltac run_step b := destruct b; [|run_done]; run_cbn.

(** The [try] block does what its plan says. *)
Lemma question_run_plan category url sc n :
  question_run JSON_parse path_join downloadBasePath category url sc n
  = plan_result url n (plan JSON_parse path_join downloadBasePath category url sc n).
Proof.
  unfold question_run, plan, plan_result, scrape_question, goToUrl,
    extractQuestionData_call, createDirectory, extractTestCases, saveMarkdown,
    saveJson, appendToFile, call.
  unfold bind, tell, ret, throw, lift, local_state, get_questionNum,
    incr_questionNum, set_questionNum, scrapedUrls_add, append_line.
  pose proof (extractQuestionData_not_OutOfFuel sc) as Hq.
  destruct (extractQuestionData sc) as [q| |];
    [|destruct (goto_ok sc); reflexivity|congruence].
  unfold is_valid.
  destruct (JS.is_empty (title q) || JS.is_empty (description q)); cbn [negb].
  { destruct (goto_ok sc); reflexivity. }
  unfold planned_calls.
  run_step (goto_ok sc).
  set (dirPath := question_dirPath _ _ _ _ _).
  change (path_join [downloadBasePath; category; dirName n (title q)]) with dirPath.
  run_step (mkdir_ok sc dirPath).
  run_step (mkdir_ok sc (path_join [dirPath; "Golang"])).
  run_step (mkdir_ok sc (path_join [dirPath; "Java"])).
  run_step (mkdir_ok sc (path_join [dirPath; "JavaScript"])).
  run_step (mkdir_ok sc (path_join [dirPath; "Python"])).
  run_step (run_click_ok sc).
  destruct (testcase_text sc) as [allTestcaseEle|]; [|reflexivity].
  rewrite pair_testcases_windows. run_cbn.
  rewrite existsb_app, windows_console_not_failed.
  rewrite until_failure_app by apply windows_console_not_failed.
  run_cbn.
  run_step (write_ok sc (path_join [dirPath; "README.md"])).
  run_step (write_ok sc (path_join [dirPath; "testcases.json"])).
  run_step (append_ok sc).
  rewrite union_empty_r_L, <- !app_assoc. reflexivity.
Qed.

(** One iteration of the queue loop always resolves; it moves the counter
    by one, emits [next_events] and commits when [next_commits] says so. *)
Lemma scrape_next_spec category url sc s :
  let n := questionNum s in
  let skip := bool_decide (url ∈ scrapedUrls s) in
  let commits := next_commits JSON_parse path_join downloadBasePath category url sc n skip in
  scrape_next JSON_parse path_join downloadBasePath category url sc s
  = (Done tt,
     {| questionNum := S n;
        scrapedUrls := if commits then {[url]} ∪ scrapedUrls s else scrapedUrls s;
        urls_to_skip := if commits then urls_to_skip s +:+ url +:+ NL else urls_to_skip s;
        trace := trace s
                 ++ next_events JSON_parse path_join downloadBasePath category url sc n skip |}).
Proof.
  cbv zeta. unfold scrape_next, next_commits, next_events.
  unfold bind at 1. unfold get_questionNum at 1. cbv iota beta.
  unfold bind at 1. unfold tell at 1. cbv iota beta.
  unfold bind at 1. unfold scrapedUrls_has at 1.
  cbn [questionNum scrapedUrls urls_to_skip trace].
  destruct (bool_decide (url ∈ scrapedUrls s)); cbn [negb andb].
  - unfold bind, tell, incr_questionNum, set_questionNum.
    cbn [questionNum scrapedUrls urls_to_skip trace].
    now rewrite <- app_assoc.
  - unfold try_catch. rewrite scrape_question_local.
    cbn [questionNum scrapedUrls urls_to_skip trace]. rewrite question_run_plan.
    unfold plan_result.
    destruct (plan JSON_parse path_join downloadBasePath category url sc (questionNum s))
      as [planned commits].
    cbn [fst snd]. destruct (existsb failed planned); cbn [fst snd negb andb].
    + unfold bind, tell, incr_questionNum, set_questionNum, extend.
      cbn [questionNum scrapedUrls urls_to_skip trace].
      rewrite union_empty_l_L, string_app_nil_r, andb_false_r, <- !app_assoc.
      reflexivity.
    + unfold extend. cbn [questionNum scrapedUrls urls_to_skip trace].
      rewrite andb_true_r, <- !app_assoc.
      destruct commits; [reflexivity|].
      now rewrite union_empty_l_L, string_app_nil_r.
Qed.

(** *** The plan of a question *)

Lemma until_failure_split l : exists k, l = until_failure l ++ k.
Proof.
  induction l as [|e l [k IH]]; [exists []; reflexivity|].
  cbn [until_failure]. destruct (failed e).
  - exists l. reflexivity.
  - exists k. cbn [app]. now f_equal.
Qed.

Lemma until_failure_Forall (P : event -> Prop) l :
  Forall P l -> Forall P (until_failure l).
Proof.
  intros H. destruct (until_failure_split l) as [k Hk]. rewrite Hk in H.
  now apply Forall_app in H as [H _].
Qed.

Lemma until_failure_sorted l :
  StronglySorted stage_le l -> StronglySorted stage_le (until_failure l).
Proof.
  intros H. destruct (until_failure_split l) as [k Hk]. rewrite Hk in H.
  now apply StronglySorted_app_1_l in H.
Qed.

Lemma windows_console_errors w :
  Forall (fun e => e = ErrorParsingJSON) (windows_console w).
Proof.
  unfold windows_console. induction w as [|[o caught] w IH]; [constructor|].
  cbn [map concat snd]. apply Forall_app. split; [|exact IH].
  destruct caught; repeat constructor.
Qed.

Lemma is_valid_fields q :
  is_valid q = true -> title q <> EmptyString /\ description q <> EmptyString.
Proof.
  unfold is_valid. intros H. apply negb_true_iff, orb_false_iff in H as [Ht Hd].
  split; intros E; rewrite E in *; discriminate.
Qed.

Lemma is_valid_false q :
  title q = EmptyString \/ description q = EmptyString -> is_valid q = false.
Proof.
  unfold is_valid. intros [-> | ->]; cbn [JS.is_empty orb negb]; [reflexivity|].
  now rewrite orb_true_r.
Qed.

(** The events of the plan of a valid record, kind by kind. *)
Lemma planned_calls_Forall (P : event -> Prop) category url sc n q :
  let dirPath := question_dirPath path_join downloadBasePath category n q in
  P (GoToUrl url (goto_ok sc)) ->
  P (ExtractQuestionData true) ->
  (forall p ok, p = dirPath \/
                (exists language, In language LANGUAGES /\ p = path_join [dirPath; language]) ->
                P (CreateDirectory p ok)) ->
  (forall ok, P (ClickRunCode ok)) ->
  (forall ok, P (QueryTestcaseData ok)) ->
  P ErrorParsingJSON ->
  (forall ok, P (SaveMarkdown (path_join [dirPath; "README.md"])
                   (generateQuestionMarkdown q) ok)) ->
  (forall data ok, P (SaveJson (path_join [dirPath; "testcases.json"]) data ok)) ->
  (forall ok, P (AppendToFile "urls_to_skip.txt" url ok)) ->
  Forall P (planned_calls JSON_parse path_join downloadBasePath category url sc n q).
Proof.
  intros dirPath Hg He Hd Hc Hq Hp Hm Hj Ha. unfold planned_calls. fold dirPath.
  cbn [map app LANGUAGES].
  repeat (apply Forall_cons; split;
          [first [exact Hg | exact He | apply Hc | apply Hq
                 | apply Hd; cbn [In LANGUAGES]; eauto 10] |]).
  apply Forall_app. split.
  - eapply Forall_impl; [apply windows_console_errors|]. now intros e ->.
  - repeat (apply Forall_cons; split; [first [apply Hm | apply Hj | apply Ha]|]).
    constructor.
Qed.

Lemma planned_calls_sorted category url sc n q :
  StronglySorted stage_le
    (planned_calls JSON_parse path_join downloadBasePath category url sc n q).
Proof.
  unfold planned_calls. cbn [map app LANGUAGES].
  assert (Htail : forall w l, Forall (fun e => 4 <= stage e) l ->
            StronglySorted stage_le l ->
            Forall (fun e => 4 <= stage e) (windows_console w ++ l) /\
            StronglySorted stage_le (windows_console w ++ l)).
  { intros w l Hl Hs. pose proof (windows_console_errors w) as Hw. split.
    - apply Forall_app. split; [|exact Hl].
      eapply Forall_impl; [exact Hw|]. intros e ->. cbn. lia.
    - apply StronglySorted_app_2; [| |exact Hs].
      + intros x1 x2 H1 H2. rewrite Forall_forall in Hw, Hl.
        rewrite (Hw x1 H1). unfold stage_le. cbn [stage]. now apply Hl.
      + induction Hw as [|e l' -> Hw IH]; constructor; [exact IH|].
        eapply Forall_impl; [exact Hw|]. intros e ->. unfold stage_le. lia. }
  match goal with |- context [windows_console ?w ++ ?l] =>
    destruct (Htail w l) as [Hge Hsorted]
  end.
  { repeat constructor; cbn [stage]; lia. }
  { repeat constructor; unfold stage_le; cbn [stage]; lia. }
  repeat (apply SSorted_cons;
          [| repeat (apply Forall_cons; split; [unfold stage_le; cbn [stage]; lia|]);
             eapply Forall_impl; [exact Hge|];
             intros e He; unfold stage_le; cbn [stage]; cbn beta in He; lia ]).
  exact Hsorted.
Qed.

(** The plan is either that of a valid record, or stops short of every
    directory and file. *)
Lemma plan_cases category url sc n :
  (exists q, extractQuestionData sc = Done q /\ is_valid q = true /\
             plan JSON_parse path_join downloadBasePath category url sc n
             = (planned_calls JSON_parse path_join downloadBasePath category url sc n q,
                true))
  \/
  ((forall q, extractQuestionData sc = Done q -> is_valid q = false) /\
   exists ok,
     plan JSON_parse path_join downloadBasePath category url sc n
     = ([GoToUrl url (goto_ok sc); ExtractQuestionData ok], false) \/
     plan JSON_parse path_join downloadBasePath category url sc n
     = ([GoToUrl url (goto_ok sc); ExtractQuestionData true;
         WarnNoTitleOrDescription url], false)).
Proof.
  unfold plan. destruct (extractQuestionData sc) as [q| |].
  - destruct (is_valid q) eqn:Hv.
    + left. exists q. auto.
    + right. split; [intros q' [= <-]; exact Hv|]. exists true. now right.
  - right. split; [discriminate|]. exists false. now left.
  - right. split; [discriminate|]. exists false. now left.
Qed.

Lemma plan_sorted category url sc n :
  StronglySorted stage_le
    (fst (plan JSON_parse path_join downloadBasePath category url sc n)) /\
  Forall (fun e => 1 <= stage e <= 6)
    (fst (plan JSON_parse path_join downloadBasePath category url sc n)).
Proof.
  destruct (plan_cases category url sc n)
    as [(q & _ & _ & ->) | (_ & ok & [-> | ->])]; cbn [fst].
  - split; [apply planned_calls_sorted|].
    apply planned_calls_Forall; intros; cbn [stage]; lia.
  - split; repeat constructor; unfold stage_le; cbn [stage]; lia.
  - split; repeat constructor; unfold stage_le; cbn [stage]; lia.
Qed.

(** A property of the console lines of the loop and of the events of the
    plan holds of all that one iteration emits. *)
Lemma next_events_Forall (P : event -> Prop) category url sc n skip :
  P (LogScraping category n) -> P LogSkipping -> P (ErrorProcessingURL url) ->
  Forall P (fst (plan JSON_parse path_join downloadBasePath category url sc n)) ->
  Forall P (next_events JSON_parse path_join downloadBasePath category url sc n skip).
Proof.
  intros Hl Hs He Hp. unfold next_events. constructor; [exact Hl|].
  destruct skip; [repeat constructor; exact Hs|]. cbv zeta.
  destruct (existsb failed _); [|exact Hp].
  apply Forall_app. split; [now apply until_failure_Forall|].
  repeat constructor; exact He.
Qed.

Lemma next_events_sorted category url sc n skip :
  StronglySorted stage_le
    (next_events JSON_parse path_join downloadBasePath category url sc n skip).
Proof.
  unfold next_events.
  destruct (plan_sorted category url sc n) as [Hsorted Hbounds].
  apply SSorted_cons.
  2: { assert (H : Forall (stage_le (LogScraping category n))
                     (next_events JSON_parse path_join downloadBasePath category url sc n skip)).
       { apply next_events_Forall; unfold stage_le; cbn [stage]; try lia.
         eapply Forall_impl; [exact Hbounds|]. intros e He. cbn beta in He. lia. }
       unfold next_events in H. now apply Forall_cons in H as [_ H]. }
  destruct skip; [repeat constructor|]. cbv zeta.
  destruct (existsb failed _); [|exact Hsorted].
  apply StronglySorted_app_2; [|now apply until_failure_sorted|repeat constructor].
  intros x1 x2 H1 H2. apply list_elem_of_singleton in H2 as ->.
  apply until_failure_Forall in Hbounds. rewrite Forall_forall in Hbounds.
  specialize (Hbounds x1 H1). unfold stage_le. cbn [stage]. lia.
Qed.

(** Sorted by stage: an event of an earlier stage comes first. *)
Lemma sorted_stage_order l i j e1 e2 :
  StronglySorted stage_le l ->
  l !! i = Some e1 -> l !! j = Some e2 -> stage e1 < stage e2 -> i < j.
Proof.
  intros Hs. revert i j. induction Hs as [|a l Hs IH Ha]; intros i j H1 H2 Hlt.
  - now rewrite lookup_nil in H1.
  - destruct i as [|i], j as [|j]; cbn in H1, H2.
    + injection H1 as <-. injection H2 as <-. lia.
    + lia.
    + injection H2 as <-. rewrite Forall_forall in Ha.
      assert (Hin : e1 ∈ l) by (eapply list_elem_of_lookup_2; eauto).
      specialize (Ha e1 Hin). unfold stage_le in Ha. lia.
    + specialize (IH i j H1 H2 Hlt). lia.
Qed.

(** *** The queue and the categories *)

Lemma scrape_queue_cons w category url rest s :
  scrape_queue JSON_parse path_join downloadBasePath w category (url :: rest) s
  = scrape_queue JSON_parse path_join downloadBasePath w category rest
      (snd (scrape_next JSON_parse path_join downloadBasePath category url
              (w category (questionNum s)) s)).
Proof.
  cbn [scrape_queue]. unfold bind at 1. unfold get_questionNum at 1. cbv iota beta.
  unfold bind at 1. now rewrite scrape_next_spec.
Qed.


(** No question makes the queue loop reject, and the counter counts the
    questions met. *)
Lemma scrape_queue_done w category questionQueue : forall s,
  fst (scrape_queue JSON_parse path_join downloadBasePath w category questionQueue s)
  = Done tt /\
  questionNum (snd (scrape_queue JSON_parse path_join downloadBasePath w category
                      questionQueue s))
  = questionNum s + length questionQueue.
Proof.
  induction questionQueue as [|url rest IH]; intros s.
  - cbn. split; [reflexivity|lia].
  - rewrite scrape_queue_cons. destruct (IH (snd (scrape_next JSON_parse path_join
      downloadBasePath category url (w category (questionNum s)) s))) as [Hd Hn].
    split; [exact Hd|]. rewrite Hn, scrape_next_spec. cbn. lia.
Qed.

Lemma scrape_categories_cons w category questionQueue rest s :
  scrape_categories JSON_parse path_join downloadBasePath w
    ((category, questionQueue) :: rest) s
  = scrape_categories JSON_parse path_join downloadBasePath w rest
      (snd (scrape_queue JSON_parse path_join downloadBasePath w category questionQueue
              (snd (set_questionNum 1 s)))).
Proof.
  cbn [scrape_categories]. unfold bind at 1. cbn [set_questionNum snd].
  unfold bind at 1.
  pose proof (scrape_queue_done w category questionQueue
    {| questionNum := 1; scrapedUrls := scrapedUrls s;
       urls_to_skip := urls_to_skip s; trace := trace s |}) as [Hd _].
  destruct (scrape_queue _ _ _ _ _ _ _) as [o s']. cbn [fst snd] in *. now subst o.
Qed.

Lemma scrape_categories_done w questionsByCategory : forall s,
  fst (scrape_categories JSON_parse path_join downloadBasePath w questionsByCategory s)
  = Done tt.
Proof.
  induction questionsByCategory as [|[category questionQueue] rest IH]; intros s;
    [reflexivity|].
  rewrite scrape_categories_cons. apply IH.
Qed.

(** *** What a committed or failed question looks like *)

Lemma planned_calls_success category url sc n q :
  existsb failed (planned_calls JSON_parse path_join downloadBasePath category url sc n q)
  = false ->
  exists pre markdownPath markdownContent jsonPath testcases,
    planned_calls JSON_parse path_join downloadBasePath category url sc n q
    = pre ++ [SaveMarkdown markdownPath markdownContent true;
              SaveJson jsonPath testcases true;
              AppendToFile "urls_to_skip.txt" url true].
Proof.
  unfold planned_calls. intros H.
  rewrite !existsb_app in H. cbn [existsb failed] in H.
  repeat (apply orb_false_iff in H as [? H]).
  repeat match goal with
         | Hn : negb ?b = false |- _ => apply negb_false_iff in Hn; rewrite Hn
         end.
  eexists _, _, _, _, _. rewrite !app_assoc. reflexivity.
Qed.

Lemma next_commits_inv category url sc n skip :
  next_commits JSON_parse path_join downloadBasePath category url sc n skip = true ->
  skip = false /\
  exists pre markdownPath markdownContent jsonPath testcases,
    next_events JSON_parse path_join downloadBasePath category url sc n skip
    = pre ++ [SaveMarkdown markdownPath markdownContent true;
              SaveJson jsonPath testcases true;
              AppendToFile "urls_to_skip.txt" url true].
Proof.
  unfold next_commits, next_events. intros H.
  apply andb_true_iff in H as [H Hok]. apply andb_true_iff in H as [Hskip Hsnd].
  apply negb_true_iff in Hskip, Hok. subst skip. split; [reflexivity|].
  cbv zeta. rewrite Hok.
  destruct (plan_cases category url sc n) as [(q & _ & _ & Hp) | (_ & ok & [Hp | Hp])];
    rewrite Hp in *; cbn [fst snd] in *; try discriminate.
  destruct (planned_calls_success category url sc n q Hok)
    as (pre & mp & mc & jp & tcs & ->).
  exists (LogScraping category n :: pre), mp, mc, jp, tcs. reflexivity.
Qed.

Lemma next_events_failed category url sc n :
  existsb failed
    (next_events JSON_parse path_join downloadBasePath category url sc n false) = true ->
  next_commits JSON_parse path_join downloadBasePath category url sc n false = false /\
  exists pre,
    next_events JSON_parse path_join downloadBasePath category url sc n false
    = pre ++ [ErrorProcessingURL url].
Proof.
  unfold next_commits, next_events. cbv zeta. cbn [existsb failed orb negb andb].
  destruct (existsb failed (fst (plan _ _ _ _ _ _ _))) eqn:E.
  - intros _. split; [now rewrite andb_false_r|].
    eexists (_ :: _). reflexivity.
  - intros H. rewrite E in H. discriminate.
Qed.

(** *** Properties of the whole trace *)

Lemma scrape_queue_trace_Forall (P : event -> Prop) w category questionQueue :
  (forall url sc n skip,
     Forall P (next_events JSON_parse path_join downloadBasePath category url sc n skip)) ->
  forall s, Forall P (trace s) ->
  Forall P (trace (snd (scrape_queue JSON_parse path_join downloadBasePath w category
                          questionQueue s))).
Proof.
  intros Hnext. induction questionQueue as [|url rest IH]; intros s Hs; [exact Hs|].
  rewrite scrape_queue_cons. apply IH. rewrite scrape_next_spec. cbv zeta.
  cbn [snd trace]. apply Forall_app. split; [exact Hs|apply Hnext].
Qed.

Lemma scrape_categories_trace_Forall (P : event -> Prop) w questionsByCategory :
  (forall category url sc n skip,
     Forall P (next_events JSON_parse path_join downloadBasePath category url sc n skip)) ->
  forall s, Forall P (trace s) ->
  Forall P (trace (snd (scrape_categories JSON_parse path_join downloadBasePath w
                          questionsByCategory s))).
Proof.
  intros Hnext. induction questionsByCategory as [|[category questionQueue] rest IH];
    intros s Hs; [exact Hs|].
  rewrite scrape_categories_cons. apply IH.
  apply scrape_queue_trace_Forall; [apply Hnext|exact Hs].
Qed.

Lemma next_events_records_valid category url sc n skip :
  Forall record_is_valid
    (next_events JSON_parse path_join downloadBasePath category url sc n skip).
Proof.
  apply next_events_Forall; try exact I.
  destruct (plan_cases category url sc n) as [(q & _ & Hv & ->) | (_ & ok & [-> | ->])];
    cbn [fst]; [|repeat constructor..].
  apply planned_calls_Forall; intros; try exact I.
  exists q. split; [reflexivity|]. now apply is_valid_fields.
Qed.

Lemma run_records_valid r w questionsByCategory :
  Forall record_is_valid
    (trace (snd (run JSON_parse path_join downloadBasePath r w questionsByCategory))).
Proof.
  unfold run. destruct (initializeScrapedUrls r) as [[scraped file]| |];
    [|constructor..].
  apply scrape_categories_trace_Forall; [|constructor].
  intros. apply next_events_records_valid.
Qed.

Lemma next_events_invalid category url sc n :
  match extractQuestionData sc with
  | Done q => title q = EmptyString \/ description q = EmptyString
  | _ => True
  end ->
  next_commits JSON_parse path_join downloadBasePath category url sc n false = false /\
  Forall (fun e => is_persistence e = false)
    (next_events JSON_parse path_join downloadBasePath category url sc n false).
Proof.
  intros Hinv.
  destruct (plan_cases category url sc n) as [(q & Hq & Hv & _) | (_ & ok & Hp)].
  { rewrite Hq in Hinv. apply is_valid_false in Hinv. congruence. }
  split.
  - unfold next_commits. destruct Hp as [-> | ->]; reflexivity.
  - apply next_events_Forall; try reflexivity.
    destruct Hp as [-> | ->]; repeat constructor.
Qed.


(** *** Resuming *)

Lemma scrape_next_resumable category url sc s :
  canonical url -> resumable s ->
  resumable (snd (scrape_next JSON_parse path_join downloadBasePath category url sc s)).
Proof.
  intros Hurl [Hfile Hsub]. rewrite scrape_next_spec. cbv zeta. cbn [snd].
  destruct (next_commits _ _ _ _ _ _ _ _); split;
    cbn [urls_to_skip scrapedUrls]; auto.
  - apply terminated_append.
  - etransitivity; [|apply loaded_append; assumption]. set_solver.
Qed.

Lemma scrape_queue_resumable w category questionQueue : forall s,
  Forall canonical questionQueue -> resumable s ->
  resumable (snd (scrape_queue JSON_parse path_join downloadBasePath w category
                    questionQueue s)).
Proof.
  induction questionQueue as [|url rest IH]; intros s Hall Hs; [exact Hs|].
  inversion Hall as [|? ? Hurl Hrest]; subst.
  rewrite scrape_queue_cons. apply IH; [exact Hrest|].
  now apply scrape_next_resumable.
Qed.

Lemma scrape_categories_resumable w questionsByCategory : forall s,
  all_urls canonical questionsByCategory -> resumable s ->
  resumable (snd (scrape_categories JSON_parse path_join downloadBasePath w
                    questionsByCategory s)).
Proof.
  induction questionsByCategory as [|[category questionQueue] rest IH];
    intros s Hall Hs; [exact Hs|].
  inversion Hall as [|? ? Hq Hrest]; subst.
  rewrite scrape_categories_cons. apply IH; [exact Hrest|].
  apply scrape_queue_resumable; [exact Hq|exact Hs].
Qed.

(** A queue whose identifiers are all in the set already: nothing but the
    two console lines per question. *)
Lemma scrape_queue_all_skipped w category questionQueue : forall s,
  Forall (fun url => url ∈ scrapedUrls s) questionQueue ->
  scrape_queue JSON_parse path_join downloadBasePath w category questionQueue s
  = (Done tt,
     {| questionNum := questionNum s + length questionQueue;
        scrapedUrls := scrapedUrls s;
        urls_to_skip := urls_to_skip s;
        trace := trace s ++ skipped_queue category (questionNum s) questionQueue |}).
Proof.
  induction questionQueue as [|url rest IH]; intros s Hall.
  - cbn. rewrite Nat.add_0_r, app_nil_r. now destruct s.
  - inversion Hall as [|? ? Hurl Hrest]; subst.
    rewrite scrape_queue_cons, scrape_next_spec. cbv zeta. cbn [snd].
    unfold next_commits, next_events. rewrite (bool_decide_eq_true_2 _ Hurl).
    cbn [negb andb]. rewrite IH by exact Hrest.
    cbn [questionNum scrapedUrls urls_to_skip trace skipped_queue length].
    rewrite <- app_assoc. do 2 f_equal. lia.
Qed.

Lemma scrape_categories_all_skipped w questionsByCategory : forall s,
  all_urls (fun url => url ∈ scrapedUrls s) questionsByCategory ->
  exists n,
    scrape_categories JSON_parse path_join downloadBasePath w questionsByCategory s
    = (Done tt,
       {| questionNum := n;
          scrapedUrls := scrapedUrls s;
          urls_to_skip := urls_to_skip s;
          trace := trace s ++ skipped_run questionsByCategory |}).
Proof.
  induction questionsByCategory as [|[category questionQueue] rest IH];
    intros s Hall.
  - exists (questionNum s). cbn. rewrite app_nil_r. now destruct s.
  - inversion Hall as [|? ? Hq Hrest]; subst. cbn [snd] in Hq.
    rewrite scrape_categories_cons. cbn [set_questionNum snd].
    rewrite scrape_queue_all_skipped by exact Hq. cbn [snd].
    edestruct IH as [n ->]; [exact Hrest|].
    exists n. cbn [questionNum scrapedUrls urls_to_skip trace skipped_run].
    now rewrite <- app_assoc.
Qed.

End ScraperFacts.

(** C1, as stated, fails: on the example sequence the input cursor reads
    index 2 and 5, the texts x and y, so neither record gets the announced
    fields, whatever the order of the keys. *)
Lemma C1_example_counterexample :
  ~ (exists testcases,
       testcases_of (pair_testcases JSON.parse example_fragments) = Done testcases /\
       Forall2 same_fields testcases example_records).
Proof.
  intros (testcases & Hrun & Hsame).
  vm_compute in Hrun. injection Hrun as <-.
  inversion Hsame as [|r1 r2 l1 l2 H1 _]; subst.
  specialize (H1 "inputs"). vm_compute in H1. discriminate.
Qed.

(** C1, amended: on the example sequence the loop yields two records that
    carry only their names; the announced records come out of the sequence
    laid out as expected, skipped, input. *)
Theorem C1_example_amended :
  testcases_of (pair_testcases JSON.parse example_fragments) = Done names_only /\
  testcases_of (pair_testcases JSON.parse example_fragments_input_last)
  = Done example_records.
Proof. split; vm_compute; reflexivity. Qed.

(** C2: the cursors start at 0 and 2, each iteration reads the expected text
    at [expectIdx] and the input text at [inputIdx] and advances by
    [expectIdx = inputIdx + 1], [inputIdx = expectIdx + 2]; so the [k]-th
    record is made of the fragments at [3k] and [3k+2] and is named
    "Test Case k+1", whether or not its texts parse. *)
Theorem C2_cursor_walk (JSON_parse : string -> option json)
    (fragments : list string) (k : nat) :
  k < length fragments / 3 ->
  expectIdx initial_cursors = 0 /\ inputIdx initial_cursors = 2 /\
  testNum initial_cursors = 1 /\
  (forall c, expectIdx (advance c) = inputIdx c + 1 /\
             inputIdx (advance c) = expectIdx (advance c) + 2 /\
             testNum (advance c) = testNum c + 1) /\
  (forall fuel c testcases console expectedTxt inputTxt,
     fragments !! expectIdx c = Some expectedTxt ->
     fragments !! inputIdx c = Some inputTxt ->
     pairing_loop JSON_parse (S fuel) fragments c testcases console
     = pairing_loop JSON_parse fuel fragments (advance c)
         (testcases ++ [fst (make_testcase JSON_parse expectedTxt inputTxt (testNum c))])
         (console ++ console_of (snd (make_testcase JSON_parse expectedTxt inputTxt (testNum c))))) /\
  Nat.iter k advance initial_cursors
  = {| testNum := k + 1; expectIdx := 3 * k; inputIdx := 3 * k + 2 |} /\
  exists expectedTxt inputTxt testcases console,
    fragments !! (3 * k) = Some expectedTxt /\
    fragments !! (3 * k + 2) = Some inputTxt /\
    pair_testcases JSON_parse fragments = Done (testcases, console) /\
    testcases !! k = Some (fst (make_testcase JSON_parse expectedTxt inputTxt (k + 1))) /\
    obj_get "name" (fst (make_testcase JSON_parse expectedTxt inputTxt (k + 1)))
    = Some (JString ("Test Case " +:+ JS.number_to_string (k + 1))).
Proof.
  intros Hk. repeat split.
  - unfold advance. cbn. lia.
  - intros. now apply pairing_loop_step.
  - rewrite advance_iter. f_equal. lia.
  - destruct (pair_windows_lookup JSON_parse fragments 1 k Hk) as (e & i & He & Hi & _).
    destruct (pair_testcases_lookup JSON_parse fragments k e i He Hi)
      as (testcases & console & Hrun & _ & Hrec).
    exists e, i, testcases, console. rewrite Nat.add_1_r.
    repeat split; auto. apply make_testcase_name.
Qed.

Lemma C2_cursor_walk_witness :
  exists testcases console,
    pair_testcases JSON.parse example_fragments_input_last = Done (testcases, console) /\
    testcases !! 1 = Some [("inputs", JArray [JInt 4; JInt 5]);
                           ("expected", JString "True");
                           ("name", JString "Test Case 2")].
Proof.
  assert (Hk : 1 < length example_fragments_input_last / 3) by (vm_compute; lia).
  destruct (C2_cursor_walk JSON.parse example_fragments_input_last 1 Hk)
    as (_ & _ & _ & _ & _ & _ & e & i & testcases & console & He & Hi & Hrun & Hrec & _).
  exists testcases, console. split; [exact Hrun|].
  rewrite Hrec. vm_compute in He, Hi. injection He as <-. injection Hi as <-.
  vm_compute. reflexivity.
Defined.

(** C5, as stated, fails: the sniff looks at the text as it is, not at the
    trimmed text.  An expected text with a space before its first letter is
    sent to [JSON.parse], which throws, and the field stays unset. *)
Lemma C5_sniff_counterexample :
  testcases_of (pair_testcases JSON.parse [" True"; "x"; "[1]"])
  = Done [[("inputs", JArray [JInt 1]); ("name", JString "Test Case 1")]] /\
  expected_on_trimmed JSON.parse " True" = Some (JString " True") /\
  obj_get "expected" (fst (make_testcase JSON.parse " True" "[1]" 1))
  <> expected_on_trimmed JSON.parse " True".
Proof.
  split; [vm_compute; reflexivity|].
  split; [vm_compute; reflexivity|].
  vm_compute. discriminate.
Qed.

(** C5, amended: in the record of a tuple whose input text parses, the
    expected field is the raw text when that text itself, untrimmed, starts
    with an ASCII letter, and otherwise the parse of the text, unset when
    the parse fails; when the input text does not parse, the expected field
    is unset. *)
Theorem C5_sniff_amended (JSON_parse : string -> option json)
    (fragments : list string) (k : nat) (expectedTxt inputTxt : string) :
  fragments !! (3 * k) = Some expectedTxt ->
  fragments !! (3 * k + 2) = Some inputTxt ->
  exists testcases console r,
    pair_testcases JSON_parse fragments = Done (testcases, console) /\
    testcases !! k = Some r /\
    obj_get "expected" r
    = match JSON_parse inputTxt with
      | None => None
      | Some _ =>
          if JS.test_starts_with_letter expectedTxt
          then Some (JString expectedTxt)
          else JSON_parse expectedTxt
      end.
Proof.
  intros He Hi.
  destruct (pair_testcases_lookup JSON_parse fragments k expectedTxt inputTxt He Hi)
    as (testcases & console & Hrun & _ & Hrec).
  exists testcases, console, (fst (make_testcase JSON_parse expectedTxt inputTxt (S k))).
  repeat split; auto. apply make_testcase_expected.
Qed.

Lemma C5_sniff_amended_witness :
  exists testcases console r,
    pair_testcases JSON.parse example_fragments_input_last = Done (testcases, console) /\
    testcases !! 1 = Some r /\
    obj_get "expected" r = Some (JString "True").
Proof.
  exact (C5_sniff_amended JSON.parse example_fragments_input_last 1 "True" "[4,5]"
           eq_refl eq_refl).
Defined.

(** C6, as stated, fails: when the input text does not parse, the [catch]
    is reached before the expected text is looked at, so the expected field
    is left unset too although its own text parses. *)
Lemma C6_parse_failure_counterexample :
  JSON.parse "5" = Some (JInt 5) /\
  testcases_of (pair_testcases JSON.parse ["5"; "x"; "{oops"])
  = Done [[("name", JString "Test Case 1")]] /\
  ~ only_offending_unset JSON.parse "5" "{oops" [("name", JString "Test Case 1")].
Proof.
  split; [vm_compute; reflexivity|].
  split; [vm_compute; reflexivity|].
  intros [_ H]. vm_compute in H. discriminate.
Qed.

(** C6, amended: for a tuple in which a parse fails, the record carries its
    name alone when the input text does not parse (the expected text is then
    not looked at), and its inputs and its name when only the expected text
    does not parse; one "Error parsing JSON:" line is logged per failing
    tuple, and all [length / 3] tuples are still produced, each under its
    own name. *)
Theorem C6_parse_failure_amended (JSON_parse : string -> option json)
    (fragments : list string) (k : nat) (expectedTxt inputTxt : string) :
  fragments !! (3 * k) = Some expectedTxt ->
  fragments !! (3 * k + 2) = Some inputTxt ->
  parse_fails JSON_parse expectedTxt inputTxt = true ->
  exists testcases console,
    pair_testcases JSON_parse fragments = Done (testcases, console) /\
    testcases !! k
    = Some (match JSON_parse inputTxt with
            | None => [("name", JString (test_case_name (k + 1)))]
            | Some inputs =>
                [("inputs", inputs); ("name", JString (test_case_name (k + 1)))]
            end) /\
    console = repeat ErrorParsingJSON (failing_tuples JSON_parse fragments) /\
    0 < failing_tuples JSON_parse fragments /\
    length testcases = length fragments / 3 /\
    forall j, j < length fragments / 3 ->
      exists r, testcases !! j = Some r /\
                obj_get "name" r = Some (JString (test_case_name (j + 1))).
Proof.
  intros He Hi Hf. rewrite pair_testcases_windows. eexists _, _.
  split; [reflexivity|].
  destruct (pair_testcases_lookup JSON_parse fragments k expectedTxt inputTxt He Hi)
    as (testcases & console & Hrun & Hlen & Hrec).
  rewrite pair_testcases_windows in Hrun. injection Hrun as <- <-.
  split; [rewrite Hrec, Nat.add_1_r; f_equal; now apply make_testcase_on_failure|].
  split; [apply windows_console_repeat|].
  split; [eapply failing_tuples_positive; eauto|].
  split; [exact Hlen|].
  intros j Hj.
  destruct (pair_windows_lookup JSON_parse fragments 1 j Hj) as (e & i & _ & _ & Hw).
  exists (fst (make_testcase JSON_parse e i (1 + j))).
  rewrite list_lookup_fmap, Hw. split; [reflexivity|].
  rewrite Nat.add_1_r. apply make_testcase_name.
Qed.

Lemma C6_parse_failure_amended_witness :
  exists testcases console,
    pair_testcases JSON.parse ["5"; "x"; "{oops"; "True"; "y"; "[4,5]"]
    = Done (testcases, console) /\
    testcases !! 0 = Some [("name", JString "Test Case 1")] /\
    console = [ErrorParsingJSON] /\
    length testcases = 2.
Proof.
  destruct (C6_parse_failure_amended JSON.parse
              ["5"; "x"; "{oops"; "True"; "y"; "[4,5]"] 0 "5" "{oops"
              eq_refl eq_refl eq_refl)
    as (testcases & console & Hrun & Hrec & Hcon & _ & Hlen & _).
  exists testcases, console. repeat split; assumption.
Defined.

(** C9: the loop never reads outside the sequence (it resolves, and both
    cursors of each of its iterations are in range); a sequence of length
    [L] yields [L / 3] records, none when [L < 3]. *)
Theorem C9_pairing_in_bounds (JSON_parse : string -> option json)
    (fragments : list string) :
  exists testcases console,
    pair_testcases JSON_parse fragments = Done (testcases, console) /\
    length testcases = length fragments / 3 /\
    (length fragments < 3 -> testcases = []) /\
    forall k, k < length fragments / 3 ->
      expectIdx (Nat.iter k advance initial_cursors) < length fragments /\
      inputIdx (Nat.iter k advance initial_cursors) < length fragments /\
      is_Some (fragments !! expectIdx (Nat.iter k advance initial_cursors)) /\
      is_Some (fragments !! inputIdx (Nat.iter k advance initial_cursors)).
Proof.
  rewrite pair_testcases_windows. eexists _, _. split; [reflexivity|].
  assert (Hlen : length (map fst (pair_windows JSON_parse 1 fragments))
                 = length fragments / 3)
    by now rewrite length_map, pair_windows_length.
  split; [exact Hlen|]. split.
  - intros Hshort. rewrite Nat.div_small in Hlen by exact Hshort.
    now apply length_zero_iff_nil.
  - intros k Hk. rewrite advance_iter. cbn [expectIdx inputIdx].
    destruct (pair_windows_lookup JSON_parse fragments 1 k Hk) as (e & i & He & Hi & _).
    pose proof (lookup_lt_Some _ _ _ He). pose proof (lookup_lt_Some _ _ _ Hi).
    repeat split; eauto.
Qed.

Lemma C9_pairing_in_bounds_witness :
  testcases_of (pair_testcases JSON.parse ["5"; "[1,2,3]"]) = Done [] /\
  inputIdx (Nat.iter 1 advance initial_cursors) < length example_fragments.
Proof.
  split.
  - destruct (C9_pairing_in_bounds JSON.parse ["5"; "[1,2,3]"])
      as (testcases & console & Hrun & _ & Hshort & _).
    rewrite Hrun. cbn [testcases_of fst]. f_equal.
    apply Hshort. cbn [length]. lia.
  - destruct (C9_pairing_in_bounds JSON.parse example_fragments)
      as (_ & _ & _ & _ & _ & Hidx).
    apply (Hidx 1). vm_compute. lia.
Defined.

(** ** Claims on the run *)

(** C3, as stated, fails.  The set is loaded from the trimmed lines of the
    file, while the membership test and the append use the identifier as the
    indexer built it.  First, an identifier whose [href] ends with a space:
    the first run, from an absent file, commits it, yet the second run does
    not find it among the trimmed lines, scrapes the question again and
    appends the identifier a second time.  Second, a first run that starts
    from a file whose last line has no line feed: the identifier it commits
    is appended to that line, and the second run scrapes the question
    again. *)
Lemma C3_resume_counterexample :
  (all_urls
     (fun url => url ∈ scrapedUrls
                   (snd (run JSON.parse join_with_slash "/out" (ReadENOENT true)
                           every_page_resolves trailing_space_catalog)))
     trailing_space_catalog /\
   urls_to_skip (snd (run JSON.parse join_with_slash "/out" (ReadENOENT true)
                        every_page_resolves trailing_space_catalog))
   = trailing_space_url +:+ NL /\
   trace (snd (run JSON.parse join_with_slash "/out"
                 (ReadData (trailing_space_url +:+ NL))
                 every_page_resolves trailing_space_catalog)) !! 1
   = Some (GoToUrl trailing_space_url true) /\
   trace (snd (run JSON.parse join_with_slash "/out"
                 (ReadData (trailing_space_url +:+ NL))
                 every_page_resolves trailing_space_catalog)) !! 12
   = Some (AppendToFile "urls_to_skip.txt" trailing_space_url true) /\
   urls_to_skip (snd (run JSON.parse join_with_slash "/out"
                        (ReadData (trailing_space_url +:+ NL))
                        every_page_resolves trailing_space_catalog))
   = trailing_space_url +:+ NL +:+ trailing_space_url +:+ NL)
  /\
  (all_urls
     (fun url => url ∈ scrapedUrls
                   (snd (run JSON.parse join_with_slash "/out" (ReadData unterminated_file)
                           every_page_resolves one_question_catalog)))
     one_question_catalog /\
   urls_to_skip (snd (run JSON.parse join_with_slash "/out" (ReadData unterminated_file)
                        every_page_resolves one_question_catalog))
   = unterminated_file +:+ two_number_sum_url +:+ NL /\
   trace (snd (run JSON.parse join_with_slash "/out"
                 (ReadData (unterminated_file +:+ two_number_sum_url +:+ NL))
                 every_page_resolves one_question_catalog)) !! 1
   = Some (GoToUrl two_number_sum_url true) /\
   trace (snd (run JSON.parse join_with_slash "/out"
                 (ReadData (unterminated_file +:+ two_number_sum_url +:+ NL))
                 every_page_resolves one_question_catalog)) !! 12
   = Some (AppendToFile "urls_to_skip.txt" two_number_sum_url true) /\
   urls_to_skip (snd (run JSON.parse join_with_slash "/out"
                        (ReadData (unterminated_file +:+ two_number_sum_url +:+ NL))
                        every_page_resolves one_question_catalog))
   = unterminated_file +:+ two_number_sum_url +:+ NL +:+ two_number_sum_url +:+ NL).
Proof.
  split.
  - split.
    { apply Forall_cons; split; [|constructor].
      apply Forall_cons; split; [|constructor].
      cbn [snd]. refine (bool_decide_eq_true_1 _ _). vm_compute. reflexivity. }
    split; [vm_compute; reflexivity|].
    split; [vm_compute; reflexivity|].
    split; vm_compute; reflexivity.
  - split.
    { apply Forall_cons; split; [|constructor].
      apply Forall_cons; split; [|constructor].
      cbn [snd]. refine (bool_decide_eq_true_1 _ _). vm_compute. reflexivity. }
    split; [vm_compute; reflexivity|].
    split; [vm_compute; reflexivity|].
    split; vm_compute; reflexivity.
Qed.

(** C3, amended: after a run that leaves every identifier of the catalog
    committed, a second run over the same catalog, started from the
    skip-list file the first one left, skips every identifier: it emits the
    two console lines of a skip per question and nothing else (no
    navigation, extraction, directory, file or append), and leaves the file
    as it was; this when the identifiers are canonical URLs (no white space
    around them, no line feed in them) and the file the first run starts
    from is absent or made of complete lines. *)
Theorem C3_resume_idempotent (JSON_parse : string -> option json)
    (path_join : list string -> string) (downloadBasePath : string)
    (w1 w2 : world) (r : read_result)
    (questionsByCategory : list (string * list string)) :
  match r with ReadData data => terminated data | _ => True end ->
  all_urls canonical questionsByCategory ->
  all_urls (fun url => url ∈ scrapedUrls
              (snd (run JSON_parse path_join downloadBasePath r w1 questionsByCategory)))
    questionsByCategory ->
  let s1 := snd (run JSON_parse path_join downloadBasePath r w1 questionsByCategory) in
  exists n,
    run JSON_parse path_join downloadBasePath (ReadData (urls_to_skip s1)) w2
      questionsByCategory
    = (Done tt,
       {| questionNum := n;
          scrapedUrls := loaded (urls_to_skip s1);
          urls_to_skip := urls_to_skip s1;
          trace := skipped_run questionsByCategory |}).
Proof.
  intros Hfile Hcanon Hall s1.
  assert (Hres : resumable s1).
  { subst s1. unfold run, initializeScrapedUrls.
    destruct r as [data | [|] |]; cbn [snd];
      try (split; [now left | set_solver]).
    - destruct (JS.is_empty data) eqn:E;
        apply scrape_categories_resumable; try exact Hcanon;
        (split; [exact Hfile|]); cbn [scrapedUrls urls_to_skip start_state];
        [set_solver | unfold loaded; now rewrite E].
    - apply scrape_categories_resumable; [exact Hcanon|].
      split; [now left | set_solver]. }
  destruct Hres as [_ Hsub]. fold s1 in Hall.
  assert (Hin : all_urls (fun url => url ∈ loaded (urls_to_skip s1)) questionsByCategory).
  { unfold all_urls in *. eapply Forall_impl; [exact Hall|].
    intros entry Hq. eapply Forall_impl; [exact Hq|]. intros url Hurl.
    now apply Hsub. }
  assert (Hinit : initializeScrapedUrls (ReadData (urls_to_skip s1))
                  = Done (loaded (urls_to_skip s1), urls_to_skip s1)).
  { unfold initializeScrapedUrls, loaded. now destruct (JS.is_empty (urls_to_skip s1)). }
  unfold run. rewrite Hinit.
  destruct (scrape_categories_all_skipped JSON_parse path_join downloadBasePath w2
              questionsByCategory (start_state (loaded (urls_to_skip s1)) (urls_to_skip s1)))
    as [n Hrun]; [exact Hin|].
  exists n. rewrite Hrun. reflexivity.
Qed.

Lemma C3_resume_idempotent_witness :
  exists n,
    run JSON.parse join_with_slash "/out" (ReadData (two_number_sum_url +:+ NL))
      every_page_resolves one_question_catalog
    = (Done tt,
       {| questionNum := n;
          scrapedUrls := loaded (two_number_sum_url +:+ NL);
          urls_to_skip := two_number_sum_url +:+ NL;
          trace := [LogScraping "Arrays" 1; LogSkipping] |}).
Proof.
  assert (Hfile : urls_to_skip
            (snd (run JSON.parse join_with_slash "/out" (ReadENOENT true)
                    every_page_resolves one_question_catalog))
          = two_number_sum_url +:+ NL) by (vm_compute; reflexivity).
  rewrite <- Hfile.
  apply (C3_resume_idempotent JSON.parse join_with_slash "/out"
           every_page_resolves every_page_resolves (ReadENOENT true)
           one_question_catalog).
  - exact I.
  - apply Forall_cons; split; [|constructor].
    apply Forall_cons; split; [|constructor].
    split; vm_compute; reflexivity.
  - apply Forall_cons; split; [|constructor].
    apply Forall_cons; split; [|constructor].
    cbn [snd]. refine (bool_decide_eq_true_1 _ _). vm_compute. reflexivity.
Defined.

(** C4: the identifier enters the set, and its line the file, only at the
    end of a question whose last events are the README written, the
    testcases file written and the line appended; when any call of the
    question is rejected the set and the file are as before and the error is
    logged with the identifier; either way the queue loop resolves and goes
    on with the next identifier of the category. *)
Theorem C4_commit_after_persist (JSON_parse : string -> option json)
    (path_join : list string -> string) (downloadBasePath : string)
    (w : world) (category url : string) (rest : list string) (s : state) :
  url ∉ scrapedUrls s ->
  exists evs s',
    scrape_next JSON_parse path_join downloadBasePath category url
      (w category (questionNum s)) s = (Done tt, s') /\
    trace s' = trace s ++ evs /\
    questionNum s' = S (questionNum s) /\
    (url ∈ scrapedUrls s' ->
       urls_to_skip s' = urls_to_skip s +:+ url +:+ NL /\
       exists pre markdownPath markdownContent jsonPath testcases,
         evs = pre ++ [SaveMarkdown markdownPath markdownContent true;
                       SaveJson jsonPath testcases true;
                       AppendToFile "urls_to_skip.txt" url true]) /\
    (existsb failed evs = true ->
       scrapedUrls s' = scrapedUrls s /\
       urls_to_skip s' = urls_to_skip s /\
       exists pre, evs = pre ++ [ErrorProcessingURL url]) /\
    scrape_queue JSON_parse path_join downloadBasePath w category (url :: rest) s
    = scrape_queue JSON_parse path_join downloadBasePath w category rest s' /\
    fst (scrape_queue JSON_parse path_join downloadBasePath w category (url :: rest) s)
    = Done tt.
Proof.
  intros Hnew. eexists _, _.
  split; [apply scrape_next_spec|]. cbv zeta.
  rewrite (bool_decide_eq_false_2 _ Hnew).
  cbn [trace questionNum scrapedUrls urls_to_skip].
  split; [reflexivity|]. split; [reflexivity|].
  set (sc := w category (questionNum s)).
  split; [|split; [|split]].
  - intros Hin.
    destruct (next_commits JSON_parse path_join downloadBasePath category url sc
                (questionNum s) false) eqn:Hc; [|contradiction].
    split; [reflexivity|].
    now destruct (next_commits_inv _ _ _ _ _ _ _ _ Hc) as [_ H].
  - intros Hfail.
    destruct (next_events_failed _ _ _ _ _ _ _ Hfail) as [-> Hlast].
    repeat split; auto.
  - rewrite scrape_queue_cons, scrape_next_spec. cbv zeta.
    now rewrite (bool_decide_eq_false_2 _ Hnew).
  - apply scrape_queue_done.
Qed.

Lemma C4_commit_after_persist_witness :
  exists evs s',
    scrape_next JSON.parse join_with_slash "/out" "Arrays" two_number_sum_url
      run_code_rejected (start_state ∅ EmptyString) = (Done tt, s') /\
    trace s' = evs /\ scrapedUrls s' = ∅ /\ urls_to_skip s' = EmptyString /\
    existsb failed evs = true.
Proof.
  destruct (C4_commit_after_persist JSON.parse join_with_slash "/out"
              (fun _ _ => run_code_rejected) "Arrays" two_number_sum_url []
              (start_state ∅ EmptyString))
    as (evs & s' & Hrun & Htrace & _ & _ & Hfail & _).
  { cbn [scrapedUrls start_state]. apply not_elem_of_empty. }
  assert (Hf : existsb failed evs = true).
  { cbn [questionNum start_state] in Hrun.
    assert (Hev : trace (snd (scrape_next JSON.parse join_with_slash "/out" "Arrays"
                                two_number_sum_url run_code_rejected
                                (start_state ∅ EmptyString))) = evs)
      by (rewrite Hrun; exact Htrace).
    rewrite <- Hev. vm_compute. reflexivity. }
  destruct (Hfail Hf) as (Hset & Hfile & _).
  exists evs, s'. repeat split; assumption.
Defined.

(** C7: a question whose extracted title or description is empty or absent
    emits no directory creation, no file write and no append, and leaves the
    set and the file as they were; in any run, every README written renders
    a record whose title and description are not empty. *)
Theorem C7_invalid_record_not_persisted (JSON_parse : string -> option json)
    (path_join : list string -> string) (downloadBasePath : string)
    (category url : string) (sc : script) (s : state)
    (r : read_result) (w : world) (questionsByCategory : list (string * list string)) :
  url ∉ scrapedUrls s ->
  match extractQuestionData sc with
  | Done q => title q = EmptyString \/ description q = EmptyString
  | _ => True
  end ->
  (exists evs s',
     scrape_next JSON_parse path_join downloadBasePath category url sc s = (Done tt, s') /\
     trace s' = trace s ++ evs /\
     Forall (fun e => is_persistence e = false) evs /\
     scrapedUrls s' = scrapedUrls s /\
     urls_to_skip s' = urls_to_skip s) /\
  Forall record_is_valid
    (trace (snd (run JSON_parse path_join downloadBasePath r w questionsByCategory))).
Proof.
  intros Hnew Hinv. split; [|apply run_records_valid].
  eexists _, _. split; [apply scrape_next_spec|]. cbv zeta.
  rewrite (bool_decide_eq_false_2 _ Hnew).
  destruct (next_events_invalid JSON_parse path_join downloadBasePath category url sc
              (questionNum s) Hinv) as [-> Hnone].
  cbn [trace scrapedUrls urls_to_skip]. repeat split; auto.
Qed.

Lemma C7_invalid_record_not_persisted_witness :
  exists s',
    scrape_next JSON.parse join_with_slash "/out" "Arrays" two_number_sum_url
      no_description_page (start_state ∅ EmptyString) = (Done tt, s') /\
    Forall (fun e => is_persistence e = false) (trace s') /\
    scrapedUrls s' = ∅ /\ urls_to_skip s' = EmptyString.
Proof.
  destruct (C7_invalid_record_not_persisted JSON.parse join_with_slash "/out"
              "Arrays" two_number_sum_url no_description_page
              (start_state ∅ EmptyString) (ReadENOENT true) every_page_resolves [])
    as [(evs & s' & Hrun & Htrace & Hnone & Hset & Hfile) _].
  - cbn [scrapedUrls start_state]. apply not_elem_of_empty.
  - right. vm_compute. reflexivity.
  - exists s'. cbn [trace start_state app] in Htrace. rewrite Htrace.
    repeat split; assumption.
Defined.



(** C10, as stated, fails: the directory of the question and its language
    subdirectories are created before the click on "Run Code"; when that
    click is rejected they exist although no test case was extracted. *)
Lemma C10_directories_counterexample :
  trace (snd (scrape_next JSON.parse join_with_slash "/out" "Arrays" two_number_sum_url
                two_number_sum_page (start_state ∅ EmptyString))) !! 3
  = Some (CreateDirectory "/out/Arrays/01-Two-Number-Sum" true) /\
  trace (snd (scrape_next JSON.parse join_with_slash "/out" "Arrays" two_number_sum_url
                two_number_sum_page (start_state ∅ EmptyString))) !! 8
  = Some (ClickRunCode true) /\
  trace (snd (scrape_next JSON.parse join_with_slash "/out" "Arrays" two_number_sum_url
                run_code_rejected (start_state ∅ EmptyString)))
  = [LogScraping "Arrays" 1;
     GoToUrl two_number_sum_url true;
     ExtractQuestionData true;
     CreateDirectory "/out/Arrays/01-Two-Number-Sum" true;
     CreateDirectory "/out/Arrays/01-Two-Number-Sum/Golang" true;
     CreateDirectory "/out/Arrays/01-Two-Number-Sum/Java" true;
     CreateDirectory "/out/Arrays/01-Two-Number-Sum/JavaScript" true;
     CreateDirectory "/out/Arrays/01-Two-Number-Sum/Python" true;
     ClickRunCode false;
     ErrorProcessingURL two_number_sum_url].
Proof.
  split; [vm_compute; reflexivity|].
  split; [vm_compute; reflexivity|].
  vm_compute. reflexivity.
Qed.

(** *** What precedes what among the events of a question *)

Section StageFacts.

Variable JSON_parse : string -> option json.
Variable path_join : list string -> string.
Variable downloadBasePath : string.

Lemma until_failure_id l : existsb failed l = false -> until_failure l = l.
Proof.
  induction l as [|e l IH]; [reflexivity|]. cbn [existsb until_failure].
  intros H. apply orb_false_iff in H as [-> Hl]. now rewrite IH.
Qed.

(** An event that is still there once the calls stop at the first rejected
    one comes after every call planned before it, and those resolved. *)
Lemma until_failure_preceded (Q : event -> Prop) l1 x l2 :
  Forall (fun e => ~ Q e) l1 -> ~ Q x ->
  forall j e, until_failure (l1 ++ x :: l2) !! j = Some e -> Q e ->
    length l1 < j /\
    until_failure (l1 ++ x :: l2) !! length l1 = Some x /\
    failed x = false.
Proof.
  induction l1 as [|a l1 IH]; intros Hl1 Hx j e Hj HQ.
  - cbn [app until_failure length] in *. destruct (failed x) eqn:E.
    + destruct j as [|j]; [|discriminate]. injection Hj as <-. contradiction.
    + destruct j as [|j]; [injection Hj as <-; contradiction|].
      split; [lia|]. split; reflexivity.
  - apply Forall_cons in Hl1 as [Ha Hl1]. cbn [app until_failure length] in *.
    destruct (failed a) eqn:E.
    + destruct j as [|j]; [|discriminate]. injection Hj as <-. contradiction.
    + destruct j as [|j]; [injection Hj as <-; contradiction|].
      destruct (IH Hl1 Hx j e Hj HQ) as (Hlt & Hi & Hf).
      split; [lia|]. split; [exact Hi | exact Hf].
Qed.

Lemma until_failure_preceded_in (Q : event -> Prop) l l1 x l2 :
  l = l1 ++ x :: l2 -> Forall (fun e => ~ Q e) l1 -> ~ Q x ->
  forall j e, until_failure l !! j = Some e -> Q e ->
    exists i, i = length l1 /\ i < j /\ until_failure l !! i = Some x /\ failed x = false.
Proof.
  intros -> Hl1 Hx j e Hj HQ.
  destruct (until_failure_preceded Q l1 x l2 Hl1 Hx j e Hj HQ) as (Hlt & Hi & Hf).
  exists (length l1). auto.
Qed.

(** What one iteration emits is either the calls planned for a valid
    record, up to the first rejected one, between the "Scraping" line and
    the error line if any, or stops short of every directory and file. *)
Lemma next_events_cases category url sc n skip :
  (exists q tail,
     extractQuestionData sc = Done q /\ is_valid q = true /\
     next_events JSON_parse path_join downloadBasePath category url sc n skip
     = LogScraping category n
       :: until_failure (planned_calls JSON_parse path_join downloadBasePath
                           category url sc n q) ++ tail /\
     Forall (fun e => stage e = 7) tail)
  \/ Forall (fun e => stage e <= 2 \/ stage e = 7)
       (next_events JSON_parse path_join downloadBasePath category url sc n skip).
Proof.
  unfold next_events. destruct skip.
  - right. repeat constructor; cbn [stage]; lia.
  - cbv zeta.
    destruct (plan_cases JSON_parse path_join downloadBasePath category url sc n)
      as [(q & Hq & Hv & ->) | (_ & ok & [-> | ->])]; cbn [fst].
    + left. exists q. destruct (existsb failed _) eqn:E.
      * exists [ErrorProcessingURL url]. repeat (split; [assumption || reflexivity|]).
        repeat constructor.
      * exists []. rewrite app_nil_r, until_failure_id by exact E.
        repeat (split; [assumption || reflexivity|]). constructor.
    + right. constructor; [cbn [stage]; lia|].
      destruct (existsb failed _).
      * apply Forall_app. split; [apply until_failure_Forall|];
          repeat constructor; cbn [stage]; lia.
      * repeat constructor; cbn [stage]; lia.
    + right. constructor; [cbn [stage]; lia|].
      destruct (existsb failed _).
      * apply Forall_app. split; [apply until_failure_Forall|];
          repeat constructor; cbn [stage]; lia.
      * repeat constructor; cbn [stage]; lia.
Qed.

Lemma lookup_question_events category n (calls tail : list event) j e :
  Forall (fun e => stage e = 7) tail ->
  (LogScraping category n :: calls ++ tail) !! j = Some e ->
  1 <= stage e <= 6 ->
  exists j', j = S j' /\ calls !! j' = Some e.
Proof.
  intros Ht Hj Hs. destruct j as [|j'].
  - injection Hj as <-. cbn [stage] in Hs. lia.
  - exists j'. split; [reflexivity|]. cbn in Hj.
    apply lookup_app_Some in Hj as [Hj | [_ Hj]]; [exact Hj|].
    pose proof (Forall_lookup_1 _ _ _ _ Ht Hj) as H7. cbn beta in H7. lia.
Qed.

Lemma lookup_calls_events category n (calls tail : list event) i x :
  calls !! i = Some x ->
  (LogScraping category n :: calls ++ tail) !! S i = Some x.
Proof. intros H. cbn. now apply lookup_app_l_Some. Qed.

Ltac earlier_call Hj position call :=
  match type of Hj with
  | until_failure ?l !! ?j = Some ?e =>
      let HF := fresh "HF" in
      let HQ := fresh "HQ" in
      let k := fresh "k" in
      let Hlt := fresh "Hlt" in
      let Hx := fresh "Hx" in
      let Hf := fresh "Hf" in
      assert (HF : Forall (fun e' => stage e' <> stage e) (take position l))
        by (repeat constructor; cbn [stage]; lia);
      assert (HQ : stage call <> stage e) by (cbn [stage]; lia);
      destruct (until_failure_preceded_in (fun e' => stage e' = stage e) l
                  (take position l) call (drop (S position) l) eq_refl HF HQ j e Hj eq_refl)
        as (k & _ & Hlt & Hx & Hf);
      cbn [failed] in Hf; apply negb_false_iff in Hf;
      exists k; split; [exact Hlt|];
      etransitivity; [exact Hx|];
      first [reflexivity | rewrite Hf; reflexivity]
  end.

(** Among the calls made for a valid record: a directory is created after
    the description was extracted, the test cases are extracted after the
    five directories were created, a file is written after the click and
    the query resolved, and the identifier is appended after both files
    were written. *)
Lemma planned_calls_preceded category url sc n q j e :
  let dirPath := question_dirPath path_join downloadBasePath category n q in
  let calls :=
    until_failure (planned_calls JSON_parse path_join downloadBasePath category url sc n q) in
  calls !! j = Some e ->
  (stage e = 3 -> exists i, i < j /\ calls !! i = Some (ExtractQuestionData true)) /\
  (stage e = 4 ->
     forall p, In p (question_directories path_join downloadBasePath category n q) ->
       exists i, i < j /\ calls !! i = Some (CreateDirectory p true)) /\
  (stage e = 5 ->
     (exists i, i < j /\ calls !! i = Some (ClickRunCode true)) /\
     (exists i, i < j /\ calls !! i = Some (QueryTestcaseData true))) /\
  (stage e = 6 ->
     exists i k testcases,
       i < k /\ k < j /\
       calls !! i = Some (SaveMarkdown (path_join [dirPath; "README.md"])
                            (generateQuestionMarkdown q) true) /\
       calls !! k = Some (SaveJson (path_join [dirPath; "testcases.json"])
                            testcases true)).
Proof.
  intros dirPath calls Hj. subst calls.
  split; [|split; [|split]].
  - intros Hs.
    earlier_call Hj 1 (ExtractQuestionData true).
  - intros Hs p Hp. unfold question_directories in Hp. fold dirPath in Hp.
    cbn [In map LANGUAGES] in Hp.
    destruct Hp as [<- | [<- | [<- | [<- | [<- | []]]]]].
    + earlier_call Hj 2 (CreateDirectory dirPath (mkdir_ok sc dirPath)).
    + earlier_call Hj 3
        (CreateDirectory (path_join [dirPath; "Golang"])
           (mkdir_ok sc (path_join [dirPath; "Golang"]))).
    + earlier_call Hj 4
        (CreateDirectory (path_join [dirPath; "Java"])
           (mkdir_ok sc (path_join [dirPath; "Java"]))).
    + earlier_call Hj 5
        (CreateDirectory (path_join [dirPath; "JavaScript"])
           (mkdir_ok sc (path_join [dirPath; "JavaScript"]))).
    + earlier_call Hj 6
        (CreateDirectory (path_join [dirPath; "Python"])
           (mkdir_ok sc (path_join [dirPath; "Python"]))).
  - intros Hs. split.
    + earlier_call Hj 7 (ClickRunCode (run_click_ok sc)).
    + earlier_call Hj 8
        (QueryTestcaseData (match testcase_text sc with Some _ => true | None => false end)).
  - intros Hs.
    set (L := planned_calls JSON_parse path_join downloadBasePath category url sc n q) in *.
    pose (windows := pair_windows JSON_parse 1 (default [] (testcase_text sc))).
    pose (W := windows_console windows).
    pose (SM := SaveMarkdown (path_join [dirPath; "README.md"]) (generateQuestionMarkdown q)
                  (write_ok sc (path_join [dirPath; "README.md"]))).
    pose (SJ := SaveJson (path_join [dirPath; "testcases.json"]) (map fst windows)
                  (write_ok sc (path_join [dirPath; "testcases.json"]))).
    pose (AP := AppendToFile "urls_to_skip.txt" url (append_ok sc)).
    assert (HW : Forall (fun e' => stage e' <> stage e) (take 9 L ++ W)).
    { apply Forall_app. split; [repeat constructor; cbn [stage]; lia|].
      eapply Forall_impl; [apply windows_console_errors|].
      intros e' ->. cbn [stage]. lia. }
    assert (HSM : stage SM <> stage e) by (unfold SM; cbn [stage]; lia).
    assert (HSJ : stage SJ <> stage e) by (unfold SJ; cbn [stage]; lia).
    destruct (until_failure_preceded_in (fun e' => stage e' = stage e) L
                (take 9 L ++ W) SM [SJ; AP] eq_refl HW HSM j e Hj eq_refl)
      as (i & Hi & _ & Hxi & Hfi).
    assert (HL : L = ((take 9 L ++ W) ++ [SM]) ++ SJ :: [AP])
      by (rewrite <- (app_assoc (take 9 L ++ W) [SM]); reflexivity).
    assert (HW' : Forall (fun e' => stage e' <> stage e) ((take 9 L ++ W) ++ [SM]))
      by (apply Forall_app; split; [exact HW | repeat constructor; exact HSM]).
    destruct (until_failure_preceded_in (fun e' => stage e' = stage e) L
                ((take 9 L ++ W) ++ [SM]) SJ [AP] HL HW' HSJ j e Hj eq_refl)
      as (k & Hk & Hltk & Hxk & Hfk).
    rewrite length_app in Hk. cbn [length] in Hk.
    exists i, k, (map fst windows).
    split; [lia|]. split; [exact Hltk|].
    unfold SM, SJ in *. cbn [failed] in Hfi, Hfk.
    apply negb_false_iff in Hfi, Hfk. split.
    + etransitivity; [exact Hxi|]. rewrite Hfi. reflexivity.
    + etransitivity; [exact Hxk|]. rewrite Hfk. reflexivity.
Qed.

Lemma before_le evs i j x : before evs i x -> i <= j -> before evs j x.
Proof. intros (k & Hk & Hx) Hij. exists k. split; [lia | exact Hx]. Qed.

Lemma before_at evs i j x e :
  evs !! i = Some e -> i < j -> before evs i x -> before evs j x.
Proof. intros _ Hij H. apply (before_le evs i j x H). lia. Qed.

Lemma before_calls category n (calls tail : list event) j x :
  before calls j x -> before (LogScraping category n :: calls ++ tail) (S j) x.
Proof.
  intros (i & Hi & Hx). exists (S i). split; [lia|]. now apply lookup_calls_events.
Qed.

(** The same, stage after stage: what precedes the events of a stage
    precedes those of the later ones. *)
Lemma planned_calls_preceded_all category url sc n q j e :
  let dirPath := question_dirPath path_join downloadBasePath category n q in
  let calls :=
    until_failure (planned_calls JSON_parse path_join downloadBasePath category url sc n q) in
  calls !! j = Some e -> 3 <= stage e <= 6 ->
  before calls j (ExtractQuestionData true) /\
  (4 <= stage e ->
     forall p, In p (question_directories path_join downloadBasePath category n q) ->
       before calls j (CreateDirectory p true)) /\
  (5 <= stage e ->
     before calls j (ClickRunCode true) /\ before calls j (QueryTestcaseData true)) /\
  (stage e = 6 ->
     exists i k testcases,
       i < k /\ k < j /\
       calls !! i = Some (SaveMarkdown (path_join [dirPath; "README.md"])
                            (generateQuestionMarkdown q) true) /\
       calls !! k = Some (SaveJson (path_join [dirPath; "testcases.json"])
                            testcases true)).
Proof.
  intros dirPath calls.
  assert (H3 : forall j e, calls !! j = Some e -> stage e = 3 ->
                 before calls j (ExtractQuestionData true)).
  { intros j' e' Hj' Hs'. now apply (planned_calls_preceded category url sc n q j' e'). }
  assert (H4 : forall j e, calls !! j = Some e -> stage e = 4 ->
                 before calls j (ExtractQuestionData true) /\
                 forall p, In p (question_directories path_join downloadBasePath
                                   category n q) ->
                   before calls j (CreateDirectory p true)).
  { intros j' e' Hj' Hs'.
    destruct (planned_calls_preceded category url sc n q j' e' Hj') as (_ & Hd & _).
    specialize (Hd Hs'). split; [|exact Hd].
    destruct (Hd dirPath) as (i & Hi & Hx); [now left|].
    eapply before_at; [exact Hx | exact Hi |]. now apply (H3 i _ Hx). }
  assert (H5 : forall j e, calls !! j = Some e -> stage e = 5 ->
                 before calls j (ExtractQuestionData true) /\
                 (forall p, In p (question_directories path_join downloadBasePath
                                    category n q) ->
                    before calls j (CreateDirectory p true)) /\
                 before calls j (ClickRunCode true) /\
                 before calls j (QueryTestcaseData true)).
  { intros j' e' Hj' Hs'.
    destruct (planned_calls_preceded category url sc n q j' e' Hj') as (_ & _ & Hc & _).
    destruct (Hc Hs') as [Hclick Hquery].
    destruct Hclick as (i & Hi & Hx).
    destruct (H4 i _ Hx eq_refl) as [He Hd].
    split; [eapply before_at; eauto|].
    split; [intros p Hp; eapply before_at; eauto|].
    split; [exists i; auto | exact Hquery]. }
  intros Hj Hs.
  assert (Hcases : stage e = 3 \/ stage e = 4 \/ stage e = 5 \/ stage e = 6) by lia.
  destruct Hcases as [E | [E | [E | E]]].
  - split; [now apply (H3 j e)|]. repeat split; intros; lia.
  - destruct (H4 j e Hj E) as [He Hd].
    split; [exact He|]. split; [intros _; exact Hd|]. split; intros; lia.
  - destruct (H5 j e Hj E) as (He & Hd & Hc & Hq).
    split; [exact He|]. split; [intros _; exact Hd|].
    split; [intros _; split; assumption | intros; lia].
  - destruct (planned_calls_preceded category url sc n q j e Hj) as (_ & _ & _ & Hf).
    destruct (Hf E) as (i & k & testcases & Hik & Hkj & Hm & Hjson).
    destruct (H5 i _ Hm eq_refl) as (He & Hd & Hc & Hq).
    assert (Hij : i < j) by lia.
    split; [now apply (before_at calls i j _ _ Hm Hij)|].
    split; [intros _ p Hp; now apply (before_at calls i j _ _ Hm Hij), Hd|].
    split; [intros _; split; now apply (before_at calls i j _ _ Hm Hij)|].
    intros _. exists i, k, testcases. auto.
Qed.

End StageFacts.

(** C10, amended: among the events of a question, a directory is created
    only for a record that was extracted and found valid (no warning is
    logged), after the extraction of the description resolved; the click on
    "Run Code" and the fragment query come after the directory of the
    question and its four language subdirectories were created; the README
    and the test-case file are written after the click and the query
    resolved; the identifier is appended after both files were written; and
    an event of an earlier stage (navigation, description, directories,
    test cases, files, append) never comes after one of a later stage. *)
Theorem C10_stage_order_amended (JSON_parse : string -> option json)
    (path_join : list string -> string) (downloadBasePath : string)
    (category url : string) (sc : script) (s : state) :
  exists evs,
    trace (snd (scrape_next JSON_parse path_join downloadBasePath category url sc s))
    = trace s ++ evs /\
    (forall i j e1 e2,
       evs !! i = Some e1 -> evs !! j = Some e2 -> stage e1 < stage e2 -> i < j) /\
    forall j e, evs !! j = Some e -> 3 <= stage e <= 6 ->
      exists q,
        extractQuestionData sc = Done q /\
        title q <> EmptyString /\ description q <> EmptyString /\
        Forall (fun e' => forall u, e' <> WarnNoTitleOrDescription u) evs /\
        before evs j (ExtractQuestionData true) /\
        (4 <= stage e ->
           forall p, In p (question_directories path_join downloadBasePath category
                             (questionNum s) q) ->
             before evs j (CreateDirectory p true)) /\
        (5 <= stage e ->
           before evs j (ClickRunCode true) /\ before evs j (QueryTestcaseData true)) /\
        (stage e = 6 ->
           exists i k testcases,
             i < k /\ k < j /\
             evs !! i
             = Some (SaveMarkdown
                       (path_join [question_dirPath path_join downloadBasePath category
                                     (questionNum s) q; "README.md"])
                       (generateQuestionMarkdown q) true) /\
             evs !! k
             = Some (SaveJson
                       (path_join [question_dirPath path_join downloadBasePath category
                                     (questionNum s) q; "testcases.json"])
                       testcases true)).
Proof.
  exists (next_events JSON_parse path_join downloadBasePath category url sc (questionNum s)
            (bool_decide (url ∈ scrapedUrls s))).
  split; [rewrite scrape_next_spec; reflexivity|].
  split; [intros i j e1 e2; apply sorted_stage_order, next_events_sorted|].
  intros j e Hj Hs.
  destruct (next_events_cases JSON_parse path_join downloadBasePath category url sc
              (questionNum s) (bool_decide (url ∈ scrapedUrls s)))
    as [(q & tail & Hq & Hv & Hev & Htail) | Hlow].
  2: { pose proof (Forall_lookup_1 _ _ _ _ Hlow Hj) as He. cbn beta in He. lia. }
  exists q. split; [exact Hq|].
  destruct (is_valid_fields q Hv) as [Ht Hd].
  split; [exact Ht|]. split; [exact Hd|]. split.
  { apply next_events_Forall; try (intros u; discriminate).
    unfold plan. rewrite Hq, Hv. cbn [fst].
    apply planned_calls_Forall; intros; discriminate. }
  rewrite Hev in Hj |- *.
  destruct (lookup_question_events category (questionNum s) _ tail j e Htail Hj)
    as (j' & -> & Hj'); [lia|].
  destruct (planned_calls_preceded_all JSON_parse path_join downloadBasePath category url sc
              (questionNum s) q j' e Hj' Hs) as (HE & HD & HC & HF).
  split; [now apply before_calls|].
  split; [intros H4 p Hp; now apply before_calls, HD|].
  split; [intros H5; destruct (HC H5); split; now apply before_calls|].
  intros H6. destruct (HF H6) as (i & k & testcases & Hik & Hkj & Hm & Hjson).
  exists (S i), (S k), testcases.
  split; [lia|]. split; [lia|]. split; now apply lookup_calls_events.
Qed.

Lemma C10_stage_order_amended_witness :
  exists evs,
    trace (snd (scrape_next JSON.parse join_with_slash "/out" "Arrays" two_number_sum_url
                  two_number_sum_page (start_state ∅ EmptyString))) = evs /\
    evs !! 12 = Some (AppendToFile "urls_to_skip.txt" two_number_sum_url true) /\
    before evs 12 (CreateDirectory "/out/Arrays/01-Two-Number-Sum/Python" true) /\
    before evs 12 (ClickRunCode true) /\
    before evs 12 (QueryTestcaseData true) /\
    exists i k testcases,
      i < k /\ k < 12 /\
      evs !! i = Some (SaveMarkdown "/out/Arrays/01-Two-Number-Sum/README.md"
                         (generateQuestionMarkdown
                            {| title := "Two Number Sum";
                               description := "Find two numbers that sum up to the target.";
                               exampleInput := "array = [3, 5]";
                               exampleOutput := "[3, 5]" |}) true) /\
      evs !! k = Some (SaveJson "/out/Arrays/01-Two-Number-Sum/testcases.json"
                         testcases true).
Proof.
  destruct (C10_stage_order_amended JSON.parse join_with_slash "/out" "Arrays"
              two_number_sum_url two_number_sum_page (start_state ∅ EmptyString))
    as (evs & Htrace & _ & Hbefore).
  cbn [trace start_state app] in Htrace.
  exists evs. split; [exact Htrace|].
  assert (H12 : evs !! 12 = Some (AppendToFile "urls_to_skip.txt" two_number_sum_url true))
    by (rewrite <- Htrace; vm_compute; reflexivity).
  split; [exact H12|].
  assert (Hs : 3 <= stage (AppendToFile "urls_to_skip.txt" two_number_sum_url true) <= 6)
    by (cbn [stage]; lia).
  destruct (Hbefore 12 _ H12 Hs) as (q & Hq & _ & _ & _ & _ & Hd & Hc & Hf).
  assert (Hq' : extractQuestionData two_number_sum_page
                = Done {| title := "Two Number Sum";
                          description := "Find two numbers that sum up to the target.";
                          exampleInput := "array = [3, 5]";
                          exampleOutput := "[3, 5]" |})
    by (vm_compute; reflexivity).
  rewrite Hq' in Hq. injection Hq as <-.
  split.
  { apply Hd; [cbn [stage]; lia|]. vm_compute. do 4 right. left. reflexivity. }
  destruct Hc as [Hclick Hquery]; [cbn [stage]; lia|].
  split; [exact Hclick|]. split; [exact Hquery|].
  destruct (Hf eq_refl) as (i & k & testcases & Hik & Hk & Hm & Hjson).
  exists i, k, testcases.
  split; [exact Hik|]. split; [exact Hk|]. split; [exact Hm | exact Hjson].
Defined.

(** * Further properties *)

(** ** The pairing loop *)

Section MorePairingFacts.

Variable JSON_parse : string -> option json.

Lemma lookup_three_more {A : Type} (a b c : A) (l : list A) i :
  (a :: b :: c :: l) !! (i + 1 * 3) = l !! i.
Proof. rewrite Nat.add_comm. reflexivity. Qed.

(** The windows do not depend on the fragments at the indices [3k+1]. *)
Lemma pair_windows_ext f : forall g n,
  length f = length g ->
  (forall i, i mod 3 <> 1 -> f !! i = g !! i) ->
  pair_windows JSON_parse n f = pair_windows JSON_parse n g.
Proof.
  induction f as [|a|a b|a b c l IH] using by_threes; intros g n Hlen Hsame.
  1-3: destruct g as [|? [|? [|? ?]]]; try discriminate Hlen; reflexivity.
  destruct g as [|a' [|b' [|c' l']]]; try discriminate Hlen.
  pose proof (Hsame 0 ltac:(cbn; lia)) as H0.
  pose proof (Hsame 2 ltac:(cbn; lia)) as H2.
  cbn in H0, H2. injection H0 as <-. injection H2 as <-.
  cbn [pair_windows]. f_equal. apply IH.
  - cbn in Hlen. lia.
  - intros i Hi. rewrite <- (lookup_three_more a b c l i).
    rewrite <- (lookup_three_more a b' c l' i). apply Hsame.
    now rewrite Nat.Div0.mod_add.
Qed.

Lemma pair_windows_short n b :
  length b < 3 -> pair_windows JSON_parse n b = [].
Proof.
  destruct b as [|? [|? [|? ?]]]; cbn [length]; intros H; try reflexivity; lia.
Qed.

(** Whole windows in front are paired on their own; the numbering goes on. *)
Lemma pair_windows_app m : forall a n b,
  length a = 3 * m ->
  pair_windows JSON_parse n (a ++ b)
  = pair_windows JSON_parse n a ++ pair_windows JSON_parse (n + m) b.
Proof.
  induction m as [|m IH]; intros a n b Hlen.
  - destruct a; [|discriminate Hlen]. cbn. now rewrite Nat.add_0_r.
  - destruct a as [|x [|y [|z a]]]; try (cbn in Hlen; lia).
    cbn [app pair_windows]. rewrite IH by (cbn in Hlen; lia).
    cbn [app]. do 3 f_equal. lia.
Qed.

Lemma windows_console_app w1 w2 :
  windows_console (w1 ++ w2) = windows_console w1 ++ windows_console w2.
Proof. unfold windows_console. now rewrite map_app, concat_app. Qed.

Lemma make_testcase_shape e i n :
  let r := fst (make_testcase JSON_parse e i n) in
  (map fst r = ["name"] \/ map fst r = ["inputs"; "name"]
   \/ map fst r = ["inputs"; "expected"; "name"]) /\
  lacks_expected r = snd (make_testcase JSON_parse e i n).
Proof.
  unfold make_testcase, try_parse_fields, lacks_expected.
  destruct (JSON_parse i); [|cbn; auto].
  destruct (JS.test_starts_with_letter e); [cbn; auto|].
  destruct (JSON_parse e); cbn; auto.
Qed.

Lemma windows_shape n fragments :
  Forall (fun p : jsobject * bool =>
            (map fst (fst p) = ["name"] \/ map fst (fst p) = ["inputs"; "name"]
             \/ map fst (fst p) = ["inputs"; "expected"; "name"]) /\
            lacks_expected (fst p) = snd p)
    (pair_windows JSON_parse n fragments).
Proof.
  revert n. induction fragments as [|a|a b|a b c l IH] using by_threes; intros n;
    try constructor.
  - apply make_testcase_shape.
  - apply IH.
Qed.

Lemma windows_console_count (w : list (jsobject * bool)) :
  Forall (fun p : jsobject * bool => lacks_expected (fst p) = snd p) w ->
  length (windows_console w) = length (List.filter lacks_expected (map fst w)).
Proof.
  unfold windows_console. induction 1 as [|[r caught] w Hp Hw IH]; [reflexivity|].
  cbn [map concat fst snd List.filter] in *. rewrite length_app, IH, Hp.
  now destruct caught.
Qed.

Lemma make_testcase_earlier_same e i n :
  JS.test_starts_with_letter e = false ->
  make_testcase_earlier JSON_parse e i n = make_testcase JSON_parse e i n.
Proof.
  intros He. unfold make_testcase_earlier, make_testcase,
    try_parse_fields_earlier, try_parse_fields.
  now rewrite He.
Qed.

Lemma pairing_loop_earlier_same fragments :
  (forall i e, i mod 3 = 0 -> fragments !! i = Some e ->
               JS.test_starts_with_letter e = false) ->
  forall fuel c testcases console,
    expectIdx c mod 3 = 0 -> inputIdx c = expectIdx c + 2 ->
    pairing_loop_earlier JSON_parse fuel fragments c testcases console
    = pairing_loop JSON_parse fuel fragments c testcases console.
Proof.
  intros Hno. induction fuel as [|fuel IH]; intros c testcases console Hmod Hin;
    cbn [pairing_loop_earlier pairing_loop]; [reflexivity|].
  destruct (inputIdx c <? length fragments); [|reflexivity].
  destruct (fragments !! expectIdx c) as [e|] eqn:He; [|reflexivity].
  destruct (fragments !! inputIdx c) as [i|]; [|reflexivity].
  rewrite (make_testcase_earlier_same e i (testNum c)) by (eapply Hno; eauto).
  destruct (make_testcase JSON_parse e i (testNum c)) as [r caught].
  apply IH; unfold advance; cbn [expectIdx inputIdx]; [|lia].
  rewrite Hin. replace (expectIdx c + 2 + 1) with (expectIdx c + 1 * 3) by lia.
  now rewrite Nat.Div0.mod_add.
Qed.

End MorePairingFacts.

(** X1: the fragment in the middle of each window is never read: two
    sequences of the same length that agree outside the indices [3k+1] give
    the same records and the same console. *)
Theorem X1_middle_fragment_unread (JSON_parse : string -> option json)
    (f g : list string) :
  length f = length g ->
  (forall i, i mod 3 <> 1 -> f !! i = g !! i) ->
  pair_testcases JSON_parse f = pair_testcases JSON_parse g.
Proof.
  intros Hlen Hsame. rewrite !pair_testcases_windows.
  now rewrite (pair_windows_ext JSON_parse f g 1 Hlen Hsame).
Qed.

Lemma X1_middle_fragment_unread_witness :
  pair_testcases JSON.parse ["5"; "x"; "[1,2,3]"; "True"; "y"; "[4,5]"]
  = pair_testcases JSON.parse ["5"; "[9]"; "[1,2,3]"; "True"; ""; "[4,5]"].
Proof.
  apply X1_middle_fragment_unread; [reflexivity|].
  intros i Hi. do 6 (destruct i as [|i]; [first [reflexivity | cbn in Hi; lia]|]).
  reflexivity.
Defined.

(** X2: a sequence that starts with [m] whole windows is paired as its front
    and its rest: the records and the console lines of the front, then those
    of the rest numbered from [m+1]; a rest of fewer than three fragments adds
    nothing. *)
Theorem X2_pairing_of_append (JSON_parse : string -> option json)
    (a b : list string) (m : nat) :
  length a = 3 * m ->
  exists ta ca tb cb,
    pair_testcases JSON_parse a = Done (ta, ca) /\
    pairing_loop JSON_parse (length b) b
      {| testNum := S m; expectIdx := 0; inputIdx := 2 |} [] [] = Done (tb, cb) /\
    pair_testcases JSON_parse (a ++ b) = Done (ta ++ tb, ca ++ cb) /\
    (length b < 3 -> pair_testcases JSON_parse (a ++ b) = pair_testcases JSON_parse a).
Proof.
  intros Hlen. eexists _, _, _, _.
  split; [apply pair_testcases_windows|].
  split; [apply (pairing_loop_windows JSON_parse (length b) b [] (S m) [] []); lia|].
  rewrite !pair_testcases_windows, (pair_windows_app JSON_parse m a 1 b Hlen).
  rewrite map_app, windows_console_app. split; [reflexivity|].
  intros Hshort. rewrite (pair_windows_short JSON_parse (1 + m) b Hshort).
  now rewrite !app_nil_r.
Qed.

Lemma X2_pairing_of_append_witness :
  pair_testcases JSON.parse (["5"; "x"; "[1,2,3]"] ++ ["True"; "y"])
  = pair_testcases JSON.parse ["5"; "x"; "[1,2,3]"].
Proof.
  destruct (X2_pairing_of_append JSON.parse ["5"; "x"; "[1,2,3]"] ["True"; "y"] 1
              eq_refl) as (ta & ca & tb & cb & _ & _ & _ & Hshort).
  apply Hshort. cbn [length]. lia.
Defined.

(** X3: every record has one of three shapes, its keys being name alone,
    inputs and name, or inputs, expected and name, in that order; so a record
    never carries an expected value without inputs.  The console has one
    "Error parsing JSON:" line per record that lacks its expected value. *)
Theorem X3_record_shapes (JSON_parse : string -> option json)
    (fragments : list string) :
  exists testcases console,
    pair_testcases JSON_parse fragments = Done (testcases, console) /\
    Forall (fun r : jsobject =>
              map fst r = ["name"] \/ map fst r = ["inputs"; "name"]
              \/ map fst r = ["inputs"; "expected"; "name"]) testcases /\
    length console = length (List.filter lacks_expected testcases).
Proof.
  rewrite pair_testcases_windows. eexists _, _. split; [reflexivity|].
  pose proof (windows_shape JSON_parse 1 fragments) as Hshape. split.
  - apply Forall_fmap. eapply Forall_impl; [exact Hshape|]. now intros p [H _].
  - apply windows_console_count. eapply Forall_impl; [exact Hshape|].
    now intros p [_ H].
Qed.

(** X4: the earlier [extractTestCases], which sends every expected text to
    [JSON.parse], and the current one give the same records and console on
    every sequence in which no fragment at an index [3k] starts with an ASCII
    letter. *)
Theorem X4_earlier_version_agrees (JSON_parse : string -> option json)
    (fragments : list string) :
  (forall i e, i mod 3 = 0 -> fragments !! i = Some e ->
               JS.test_starts_with_letter e = false) ->
  pair_testcases_earlier JSON_parse fragments = pair_testcases JSON_parse fragments.
Proof.
  intros Hno. unfold pair_testcases_earlier, pair_testcases.
  now apply pairing_loop_earlier_same.
Qed.

Lemma X4_earlier_version_agrees_witness :
  pair_testcases_earlier JSON.parse ["5"; "x"; "[1,2,3]"; "[0]"; "y"; "{oops"]
  = pair_testcases JSON.parse ["5"; "x"; "[1,2,3]"; "[0]"; "y"; "{oops"].
Proof.
  apply X4_earlier_version_agrees.
  intros i e Hi He.
  do 6 (destruct i as [|i];
        [first [injection He as <-; reflexivity | cbn in Hi; lia]|]).
  discriminate He.
Defined.

(** ** Strings: [removeNewlineSpaces], the directory name, the description *)

Lemma LF_is_space c : Ascii.eqb c JS.LF = true -> JS.is_space c = true.
Proof. intros H. apply Ascii.eqb_eq in H. now subst c. Qed.

Lemma not_space_not_LF c : JS.is_space c = false -> Ascii.eqb c JS.LF = false.
Proof.
  intros H. destruct (Ascii.eqb c JS.LF) eqn:E; [|reflexivity].
  apply LF_is_space in E. congruence.
Qed.

Lemma replace_newline_spaces_shape s : forall m,
  no_space_after_LF (JS.replace_newline_spaces_go m s) = true /\
  (m <> JS.Plain -> starts_with_space (JS.replace_newline_spaces_go m s) = false).
Proof.
  induction s as [|c r IH]; intros m; [destruct m; now split|].
  assert (Hskip : JS.is_space c = true ->
            no_space_after_LF (JS.replace_newline_spaces_go JS.InRun r) = true /\
            starts_with_space (JS.replace_newline_spaces_go JS.InRun r) = false).
  { intros _. destruct (IH JS.InRun) as [H1 H2]. split; [exact H1|now apply H2]. }
  assert (Hkeep : JS.is_space c = false ->
            no_space_after_LF (String c (JS.replace_newline_spaces_go JS.Plain r)) = true /\
            starts_with_space (String c (JS.replace_newline_spaces_go JS.Plain r)) = false).
  { intros Hc. cbn [no_space_after_LF starts_with_space].
    rewrite (not_space_not_LF c Hc), (proj1 (IH JS.Plain)). now split. }
  destruct m; cbn [JS.replace_newline_spaces_go].
  - split; [|congruence]. destruct (Ascii.eqb c JS.LF) eqn:E.
    + cbn [no_space_after_LF]. destruct (IH JS.AfterLF) as [H1 H2].
      rewrite H1, H2 by discriminate. reflexivity.
    + cbn [no_space_after_LF]. rewrite E, (proj1 (IH JS.Plain)). reflexivity.
  - destruct (JS.is_space c) eqn:Hc; [destruct (Hskip eq_refl)|destruct (Hkeep eq_refl)];
      now split.
  - destruct (JS.is_space c) eqn:Hc; [destruct (Hskip eq_refl)|destruct (Hkeep eq_refl)];
      now split.
Qed.

Lemma no_space_after_LF_tail c r :
  no_space_after_LF (String c r) = true -> no_space_after_LF r = true.
Proof. cbn [no_space_after_LF]. intros H. now apply andb_true_iff in H as [_ H]. Qed.

Lemma trimStart_shape s :
  starts_with_space (JS.trimStart s) = false /\
  (no_space_after_LF s = true -> no_space_after_LF (JS.trimStart s) = true).
Proof.
  induction s as [|c r [IH1 IH2]]; [now split|]. cbn [JS.trimStart].
  destruct (JS.is_space c) eqn:Hc.
  - split; [exact IH1|]. intros H. apply IH2. now apply no_space_after_LF_tail in H.
  - split; [exact Hc|auto].
Qed.

Lemma trimEnd_head s :
  starts_with_space s = false -> starts_with_space (JS.trimEnd s) = false.
Proof.
  destruct s as [|c r]; [reflexivity|]. cbn [starts_with_space JS.trimEnd].
  intros Hc. rewrite Hc. cbn [andb starts_with_space]. exact Hc.
Qed.

Lemma trimEnd_shape s :
  ends_with_space (JS.trimEnd s) = false /\
  (no_space_after_LF s = true -> no_space_after_LF (JS.trimEnd s) = true).
Proof.
  induction s as [|c r [IH1 IH2]]; [now split|]. cbn [JS.trimEnd].
  destruct (JS.is_space c && JS.is_empty (JS.trimEnd r)) eqn:E; [now split|].
  split.
  - cbn [ends_with_space]. destruct (JS.trimEnd r) eqn:Er; [|exact IH1].
    cbn [JS.is_empty] in E. now rewrite andb_true_r in E.
  - cbn [no_space_after_LF]. intros H. apply andb_true_iff in H as [Hc Hr].
    rewrite (IH2 Hr), andb_true_r.
    destruct (Ascii.eqb c JS.LF); [|reflexivity]. cbn [negb orb] in *.
    apply negb_true_iff in Hc. now rewrite (trimEnd_head r Hc).
Qed.

Lemma replace_newline_spaces_fixed s :
  no_space_after_LF s = true ->
  JS.replace_newline_spaces_go JS.Plain s = s /\
  (starts_with_space s = false -> JS.replace_newline_spaces_go JS.AfterLF s = s).
Proof.
  induction s as [|c r IH]; [now split|]. intros H.
  pose proof (no_space_after_LF_tail c r H) as Hr. destruct (IH Hr) as [IHp IHa].
  cbn [no_space_after_LF] in H. apply andb_true_iff in H as [Hc _].
  cbn [JS.replace_newline_spaces_go starts_with_space]. split.
  - destruct (Ascii.eqb c JS.LF) eqn:E; [|now rewrite IHp].
    apply Ascii.eqb_eq in E. subst c. cbn [negb orb] in Hc.
    apply negb_true_iff in Hc. now rewrite IHa.
  - intros ->. now rewrite IHp.
Qed.

Lemma trimStart_fixed s : starts_with_space s = false -> JS.trimStart s = s.
Proof. destruct s as [|c r]; [reflexivity|]. cbn. now intros ->. Qed.

Lemma trimEnd_fixed s : ends_with_space s = false -> JS.trimEnd s = s.
Proof.
  induction s as [|c r IH]; [reflexivity|]. intros H. cbn [JS.trimEnd].
  destruct r as [|d r'].
  - cbn in H. cbn. now rewrite H.
  - rewrite IH by exact H. cbn [JS.is_empty]. now rewrite andb_false_r.
Qed.

(** X5: the text [removeNewlineSpaces] returns has no white space at either
    end and no line feed followed by white space (so no blank line either),
    and [removeNewlineSpaces] leaves such a text as it is: applying it twice
    is applying it once. *)
Theorem X5_removeNewlineSpaces_normal_form (text : string) :
  starts_with_space (removeNewlineSpaces text) = false /\
  ends_with_space (removeNewlineSpaces text) = false /\
  no_space_after_LF (removeNewlineSpaces text) = true /\
  removeNewlineSpaces (removeNewlineSpaces text) = removeNewlineSpaces text.
Proof.
  unfold removeNewlineSpaces, JS.trim, JS.replace_newline_spaces.
  set (replaced := JS.replace_newline_spaces_go JS.Plain text).
  assert (Hrep : no_space_after_LF replaced = true)
    by apply (replace_newline_spaces_shape text JS.Plain).
  destruct (trimStart_shape replaced) as [Hs1 Hs2]. specialize (Hs2 Hrep).
  destruct (trimEnd_shape (JS.trimStart replaced)) as [He1 He2]. specialize (He2 Hs2).
  pose proof (trimEnd_head _ Hs1) as Hhead.
  repeat split; try assumption.
  rewrite (proj1 (replace_newline_spaces_fixed _ He2)).
  now rewrite (trimStart_fixed _ Hhead), (trimEnd_fixed _ He1).
Qed.

Lemma contains_space_app a b :
  contains_space (a +:+ b) = contains_space a || contains_space b.
Proof.
  induction a as [|c a IH]; [reflexivity|].
  rewrite string_app_cons. cbn [contains_space]. now rewrite IH, orb_assoc.
Qed.

Lemma replace_spaces_no_space s : forall in_run,
  contains_space (JS.replace_spaces_go in_run s) = false.
Proof.
  induction s as [|c r IH]; intros in_run; [reflexivity|].
  cbn [JS.replace_spaces_go]. destruct (JS.is_space c) eqn:Hc.
  - destruct in_run; [apply IH|]. cbn [contains_space]. now rewrite IH.
  - cbn [contains_space]. now rewrite Hc, IH.
Qed.

Lemma replace_spaces_fixed s : forall in_run,
  contains_space s = false -> JS.replace_spaces_go in_run s = s.
Proof.
  induction s as [|c r IH]; intros in_run H; [reflexivity|].
  cbn [contains_space] in H. apply orb_false_iff in H as [Hc Hr].
  cbn [JS.replace_spaces_go]. now rewrite Hc, IH.
Qed.

Lemma digits_no_space u : contains_space (NilEmpty.string_of_uint u) = false.
Proof. induction u; cbn [NilEmpty.string_of_uint contains_space]; auto. Qed.

(** X6: the directory name of a question never contains white space,
    whatever the title; on a title without white space it is the number
    prefix followed by the title unchanged. *)
Theorem X6_dirName_no_white_space (n : nat) (title : string) :
  contains_space (dirName n title) = false /\
  (contains_space title = false -> dirName n title = numPrefix n +:+ title).
Proof.
  unfold dirName, JS.replace_spaces_with_dash. split.
  - rewrite contains_space_app, replace_spaces_no_space, orb_false_r.
    unfold numPrefix, JS.number_to_string.
    destruct (9 <? n); rewrite !contains_space_app, digits_no_space; reflexivity.
  - intros H. now rewrite replace_spaces_fixed.
Qed.

Lemma X6_dirName_no_white_space_witness :
  dirName 7 "Validate-Subsequence" = numPrefix 7 +:+ "Validate-Subsequence".
Proof.
  apply (X6_dirName_no_white_space 7 "Validate-Subsequence"). reflexivity.
Defined.

Lemma string_app_not_empty a c b : a +:+ String c b <> EmptyString.
Proof. destruct a; discriminate. Qed.

(** X7: in the record [extractQuestionData] resolves with, the title is the
    trimmed text of the title element, and the description is empty exactly
    when there is no paragraph element or a single one that is blank; with
    two paragraph elements or more the description is never empty, blank
    paragraphs included. *)
Theorem X7_description_empty (sc : script) (q : CodingQuestion) :
  extractQuestionData sc = Done q ->
  exists text paragraphs,
    title_text sc = Some text /\ paragraph_text sc = Some paragraphs /\
    title q = JS.trim text /\
    (description q = EmptyString <->
       paragraphs = [] \/
       exists p, paragraphs = [p] /\ removeNewlineSpaces p = EmptyString) /\
    (2 <= length paragraphs -> description q <> EmptyString).
Proof.
  unfold extractQuestionData.
  destruct (title_text sc) as [text|]; [|discriminate].
  destruct (paragraph_text sc) as [paragraphs|]; [|discriminate].
  destruct (example_text sc) as [pre|]; [|discriminate].
  destruct (pre !! 0); [|discriminate]. destruct (pre !! 1); [|discriminate].
  intros [= <-]. exists text, paragraphs. cbn [title description].
  repeat split; try reflexivity.
  - destruct paragraphs as [|p [|p2 rest]]; cbn [map JS.join].
    + auto.
    + intros H. right. exists p. auto.
    + intros H. now apply string_app_not_empty in H.
  - intros [-> | (p & -> & Hp)]; [reflexivity|exact Hp].
  - destruct paragraphs as [|p [|p2 rest]]; cbn [length map JS.join]; try lia.
    intros _. apply string_app_not_empty.
Qed.

Lemma X7_description_empty_witness :
  exists q, extractQuestionData blank_paragraphs_page = Done q /\
            description q <> EmptyString.
Proof.
  assert (H : extractQuestionData blank_paragraphs_page
              = Done {| title := "Two Number Sum"; description := NL +:+ NL;
                        exampleInput := "array = [3, 5]";
                        exampleOutput := "[3, 5]" |})
    by (vm_compute; reflexivity).
  eexists. split; [exact H|].
  destruct (X7_description_empty _ _ H)
    as (text & paragraphs & _ & Hp & _ & _ & Hmany).
  cbn [paragraph_text blank_paragraphs_page] in Hp. injection Hp as <-.
  apply Hmany. cbn [length]. lia.
Defined.

(** ** The skip-list written and read back *)

Lemma is_empty_app_cons a c b : JS.is_empty (a +:+ String c b) = false.
Proof. destruct a; reflexivity. Qed.

Lemma skip_lines_cons url rest :
  skip_lines (url :: rest) = url +:+ String JS.LF (skip_lines rest).
Proof. reflexivity. Qed.

Lemma skip_lines_app a b : skip_lines (a ++ b) = skip_lines a +:+ skip_lines b.
Proof.
  induction a as [|url a IH]; [reflexivity|].
  cbn [app skip_lines]. now rewrite IH, !string_app_assoc.
Qed.

Lemma split_lines_skip_lines urls :
  Forall canonical urls ->
  JS.split_lines (skip_lines urls) = urls ++ [EmptyString].
Proof.
  induction 1 as [|url rest [_ HLF] _ IH]; [reflexivity|].
  rewrite skip_lines_cons, split_lines_app, (split_lines_no_LF url HLF), IH.
  reflexivity.
Qed.

Lemma map_trim_canonical urls :
  Forall canonical urls -> map JS.trim urls = urls.
Proof.
  induction 1 as [|url rest [Htrim _] _ IH]; [reflexivity|].
  cbn [map]. now rewrite Htrim, IH.
Qed.

(** X8: the file that appends of canonical identifiers write from nothing
    is read back by [initializeScrapedUrls] as the set of those identifiers
    together with the empty string (the piece after the last line feed); the
    empty file is read back as the empty set. *)
Theorem X8_skip_list_round_trip (urls : list string) :
  Forall canonical urls ->
  initializeScrapedUrls (ReadData (skip_lines urls))
  = Done (match urls with
          | [] => ∅
          | _ :: _ => {[EmptyString]} ∪ list_to_set urls
          end, skip_lines urls).
Proof.
  intros Hall. unfold initializeScrapedUrls.
  destruct urls as [|url rest]; [reflexivity|].
  rewrite skip_lines_cons at 1. rewrite is_empty_app_cons.
  rewrite (split_lines_skip_lines _ Hall), map_app, (map_trim_canonical _ Hall).
  do 2 f_equal. cbn [map]. change (JS.trim EmptyString) with EmptyString.
  rewrite list_to_set_app_L. set_solver.
Qed.

Lemma X8_skip_list_round_trip_witness :
  initializeScrapedUrls (ReadData (skip_lines [two_number_sum_url; "https://x/y"]))
  = Done ({[EmptyString]} ∪ list_to_set [two_number_sum_url; "https://x/y"],
          skip_lines [two_number_sum_url; "https://x/y"]).
Proof.
  apply (X8_skip_list_round_trip [two_number_sum_url; "https://x/y"]).
  repeat (apply Forall_cons; split; [split; vm_compute; reflexivity|]).
  constructor.
Defined.

(** ** The skip-list during a run *)

Lemma appended_urls_app a b :
  appended_urls (a ++ b) = appended_urls a ++ appended_urls b.
Proof.
  induction a as [|e a IH]; [reflexivity|]. cbn [app appended_urls].
  destruct e; try exact IH. destruct ok; [|exact IH]. cbn [app]. now f_equal.
Qed.

Lemma appended_urls_none l :
  Forall (fun e => appended_urls [e] = []) l -> appended_urls l = [].
Proof.
  induction 1 as [|e l He _ IH]; [reflexivity|].
  change (e :: l) with ([e] ++ l). now rewrite appended_urls_app, He, IH.
Qed.

Lemma until_failure_app_failed l r :
  existsb failed l = true -> until_failure (l ++ r) = until_failure l.
Proof.
  induction l as [|e l IH]; [discriminate|]. cbn [existsb app until_failure].
  destruct (failed e); [reflexivity|]. cbn [orb]. intros H. now rewrite IH.
Qed.

(** A plan that ends with the append and has no other: what was appended
    once the plan has run. *)
Lemma appended_urls_of_plan pre filePath url ok :
  Forall (fun e => appended_urls [e] = []) pre ->
  let l := pre ++ [AppendToFile filePath url ok] in
  appended_urls (if existsb failed l then until_failure l ++ [ErrorProcessingURL url] else l)
  = if existsb failed l then [] else [url].
Proof.
  intros Hpre l. subst l. rewrite existsb_app.
  destruct (existsb failed pre) eqn:E; cbn [orb].
  - rewrite until_failure_app_failed by exact E.
    rewrite appended_urls_app. cbn [appended_urls app]. rewrite app_nil_r.
    apply appended_urls_none. now apply until_failure_Forall.
  - cbn [existsb failed orb]. rewrite orb_false_r.
    destruct ok; cbn [negb].
    + rewrite appended_urls_app, (appended_urls_none pre Hpre). reflexivity.
    + rewrite until_failure_app by exact E. rewrite !appended_urls_app.
      rewrite (appended_urls_none pre Hpre). reflexivity.
Qed.

Section SkipListFacts.

Variable JSON_parse : string -> option json.
Variable path_join : list string -> string.
Variable downloadBasePath : string.

Lemma planned_calls_append_last category url sc n q :
  exists pre,
    planned_calls JSON_parse path_join downloadBasePath category url sc n q
    = pre ++ [AppendToFile "urls_to_skip.txt" url (append_ok sc)] /\
    Forall (fun e => appended_urls [e] = []) pre.
Proof.
  unfold planned_calls. cbn [map LANGUAGES].
  match goal with
  | |- context [[?m; ?j; AppendToFile ?f ?u ?ok]] =>
      change [m; j; AppendToFile f u ok] with ([m; j] ++ [AppendToFile f u ok])
  end.
  rewrite !app_assoc. eexists. split; [reflexivity|].
  rewrite !Forall_app. repeat split; try (repeat constructor).
  eapply Forall_impl; [apply windows_console_errors|]. now intros e ->.
Qed.

(** One iteration appends its identifier exactly when it commits. *)
Lemma appended_urls_next_events category url sc n skip :
  appended_urls (next_events JSON_parse path_join downloadBasePath category url sc n skip)
  = if next_commits JSON_parse path_join downloadBasePath category url sc n skip
    then [url] else [].
Proof.
  unfold next_events, next_commits. cbn [appended_urls].
  destruct skip; [reflexivity|]. cbv zeta. cbn [negb andb].
  destruct (plan_cases JSON_parse path_join downloadBasePath category url sc n)
    as [(q & _ & _ & ->) | (_ & ok & [-> | ->])]; cbn [fst snd andb].
  - destruct (planned_calls_append_last category url sc n q) as (pre & -> & Hpre).
    rewrite (appended_urls_of_plan pre _ url _ Hpre).
    now destruct (existsb failed _).
  - destruct (goto_ok sc), ok; reflexivity.
  - destruct (goto_ok sc); reflexivity.
Qed.

Lemma next_commits_not_skipped category url sc n skip :
  next_commits JSON_parse path_join downloadBasePath category url sc n skip = true ->
  skip = false.
Proof. unfold next_commits. now destruct skip. Qed.

Lemma accounts_same queue s s' :
  trace s' = trace s -> urls_to_skip s' = urls_to_skip s ->
  scrapedUrls s' = scrapedUrls s -> accounts queue s s' [].
Proof.
  intros Ht Hf Hs. unfold accounts. cbn [appended_urls skip_lines].
  rewrite Ht, Hf, Hs, app_nil_r, string_app_nil_r.
  repeat split; [set_solver|constructor|constructor].
Qed.

Lemma accounts_refl queue s : accounts queue s s [].
Proof. now apply accounts_same. Qed.

Lemma accounts_weaken queue queue' s s' evs :
  (forall url, In url queue -> In url queue') ->
  accounts queue s s' evs -> accounts queue' s s' evs.
Proof.
  intros Hsub (Ht & Hf & Hs & Hn & Ha). repeat split; try assumption.
  eapply Forall_impl; [exact Ha|]. intros url [H1 H2]. auto.
Qed.

Lemma accounts_trans queue s s1 s2 e1 e2 :
  accounts queue s s1 e1 -> accounts queue s1 s2 e2 -> accounts queue s s2 (e1 ++ e2).
Proof.
  intros (Ht1 & Hf1 & Hs1 & Hn1 & Ha1) (Ht2 & Hf2 & Hs2 & Hn2 & Ha2).
  unfold accounts. rewrite appended_urls_app, skip_lines_app.
  rewrite Forall_forall in Ha1, Ha2.
  assert (Hfresh : forall url, url ∈ appended_urls e2 ->
            (url ∉ scrapedUrls s) /\ (url ∉ appended_urls e1)).
  { intros url Hin. destruct (Ha2 url Hin) as [Hnot _]. rewrite Hs1 in Hnot.
    split; intros H; apply Hnot; set_solver. }
  repeat split.
  - now rewrite Ht2, Ht1, app_assoc.
  - now rewrite Hf2, Hf1, string_app_assoc.
  - rewrite Hs2, Hs1, list_to_set_app_L. set_solver.
  - apply NoDup_app. repeat split; try assumption.
    intros url H1 H2. now apply (Hfresh url H2).
  - apply Forall_app. split; apply Forall_forall; intros url Hin.
    + now apply Ha1.
    + split; [now apply Hfresh|now apply Ha2].
Qed.

Lemma accounts_next category url sc s :
  accounts [url] s
    (snd (scrape_next JSON_parse path_join downloadBasePath category url sc s))
    (next_events JSON_parse path_join downloadBasePath category url sc (questionNum s)
       (bool_decide (url ∈ scrapedUrls s))).
Proof.
  rewrite scrape_next_spec. cbv zeta. cbn [snd]. unfold accounts.
  cbn [trace urls_to_skip scrapedUrls]. rewrite appended_urls_next_events.
  destruct (next_commits _ _ _ _ _ _ _ _) eqn:Hc; cbn [skip_lines].
  - apply next_commits_not_skipped in Hc. apply bool_decide_eq_false_1 in Hc.
    rewrite string_app_nil_r. repeat split.
    + set_solver.
    + apply NoDup_singleton.
    + repeat constructor. exact Hc.
  - rewrite string_app_nil_r. repeat split; [set_solver|constructor|constructor].
Qed.

Lemma accounts_queue w category questionQueue : forall s,
  exists evs,
    accounts questionQueue s
      (snd (scrape_queue JSON_parse path_join downloadBasePath w category questionQueue s))
      evs.
Proof.
  induction questionQueue as [|url rest IH]; intros s.
  - exists []. apply accounts_refl.
  - rewrite scrape_queue_cons.
    destruct (IH (snd (scrape_next JSON_parse path_join downloadBasePath category url
                         (w category (questionNum s)) s))) as [evs Hrest].
    eexists. eapply accounts_trans.
    + eapply accounts_weaken; [|apply accounts_next]. intros u [<- | []]. now left.
    + eapply accounts_weaken; [|exact Hrest]. intros u Hu. now right.
Qed.

Lemma accounts_categories w questionsByCategory : forall s,
  exists evs,
    accounts (catalog_urls questionsByCategory) s
      (snd (scrape_categories JSON_parse path_join downloadBasePath w
              questionsByCategory s))
      evs.
Proof.
  induction questionsByCategory as [|[category questionQueue] rest IH]; intros s.
  - exists []. apply accounts_refl.
  - rewrite scrape_categories_cons. cbn [set_questionNum snd].
    set (s0 := {| questionNum := 1; scrapedUrls := scrapedUrls s;
                  urls_to_skip := urls_to_skip s; trace := trace s |}).
    destruct (accounts_queue w category questionQueue s0) as [e1 H1].
    destruct (IH (snd (scrape_queue JSON_parse path_join downloadBasePath w category
                         questionQueue s0))) as [e2 H2].
    exists (e1 ++ e2).
    assert (H0 : accounts (catalog_urls ((category, questionQueue) :: rest)) s s0 [])
      by now apply accounts_same.
    change (e1 ++ e2) with ([] ++ e1 ++ e2).
    eapply accounts_trans; [exact H0|]. eapply accounts_trans.
    + eapply accounts_weaken; [|exact H1]. intros u Hu.
      unfold catalog_urls. cbn [map snd concat]. apply in_or_app. now left.
    + eapply accounts_weaken; [|exact H2]. intros u Hu.
      unfold catalog_urls. cbn [map snd concat]. apply in_or_app. now right.
Qed.

End SkipListFacts.

(** X9: whatever the pages and the file system do, the skip-list file after
    the categories are processed is the file before followed by one line per
    append that resolved, in the order of the trace, and the set is the set
    before with the identifiers of those appends: the file only grows, and
    set and file move together. *)
Theorem X9_skip_list_accounting (JSON_parse : string -> option json)
    (path_join : list string -> string) (downloadBasePath : string)
    (w : world) (questionsByCategory : list (string * list string)) (s : state) :
  exists evs,
    trace (snd (scrape_categories JSON_parse path_join downloadBasePath w
                  questionsByCategory s)) = trace s ++ evs /\
    urls_to_skip (snd (scrape_categories JSON_parse path_join downloadBasePath w
                         questionsByCategory s))
    = urls_to_skip s +:+ skip_lines (appended_urls evs) /\
    scrapedUrls (snd (scrape_categories JSON_parse path_join downloadBasePath w
                        questionsByCategory s))
    = list_to_set (appended_urls evs) ∪ scrapedUrls s.
Proof.
  destruct (accounts_categories JSON_parse path_join downloadBasePath w
              questionsByCategory s) as (evs & Ht & Hf & Hs & _).
  exists evs. auto.
Qed.

(** X10: no identifier is appended twice in a run, none is appended that
    was in the set when the run started, and every identifier appended is
    one of the catalog. *)
Theorem X10_no_identifier_appended_twice (JSON_parse : string -> option json)
    (path_join : list string -> string) (downloadBasePath : string)
    (w : world) (questionsByCategory : list (string * list string)) (s : state) :
  exists evs,
    trace (snd (scrape_categories JSON_parse path_join downloadBasePath w
                  questionsByCategory s)) = trace s ++ evs /\
    NoDup (appended_urls evs) /\
    Forall (fun url => (url ∉ scrapedUrls s) /\ In url (catalog_urls questionsByCategory))
      (appended_urls evs).
Proof.
  destruct (accounts_categories JSON_parse path_join downloadBasePath w
              questionsByCategory s) as (evs & Ht & _ & _ & Hn & Ha).
  exists evs. auto.
Qed.

(** ** Isolation and progress *)

Lemma filter_none {A : Type} (f : A -> bool) l :
  Forall (fun x => f x = false) l -> List.filter f l = [].
Proof.
  induction 1 as [|x l Hx _ IH]; [reflexivity|]. cbn [List.filter]. now rewrite Hx.
Qed.

Lemma staged_not_scraping e : 1 <= stage e -> is_scraping_line e = false.
Proof. destruct e; cbn [stage is_scraping_line]; intros H; first [reflexivity | lia]. Qed.

Section IsolationFacts.

Variable JSON_parse : string -> option json.
Variable path_join : list string -> string.
Variable downloadBasePath : string.

(** The [try] block alone commits exactly when the iteration does. *)
Lemma question_run_commits category url sc n :
  url ∈ scrapedUrls (snd (question_run JSON_parse path_join downloadBasePath
                            category url sc n))
  <-> next_commits JSON_parse path_join downloadBasePath category url sc n false = true.
Proof.
  rewrite question_run_plan. unfold plan_result, next_commits. cbn [negb andb].
  destruct (existsb failed _); cbn [snd scrapedUrls negb];
    [rewrite andb_false_r; set_solver|rewrite andb_true_r].
  destruct (snd _); [set_solver|set_solver].
Qed.

Lemma scrapedUrls_next_new category url sc s :
  url ∉ scrapedUrls s ->
  scrapedUrls (snd (scrape_next JSON_parse path_join downloadBasePath category url sc s))
  = if next_commits JSON_parse path_join downloadBasePath category url sc
         (questionNum s) false
    then {[url]} ∪ scrapedUrls s else scrapedUrls s.
Proof.
  intros Hnew. rewrite scrape_next_spec. cbv zeta. cbn [snd scrapedUrls].
  now rewrite (bool_decide_eq_false_2 _ Hnew).
Qed.

Lemma scrape_queue_isolated w category questionQueue : forall s i url,
  NoDup questionQueue ->
  Forall (fun u => u ∉ scrapedUrls s) questionQueue ->
  questionQueue !! i = Some url ->
  url ∈ scrapedUrls (snd (scrape_queue JSON_parse path_join downloadBasePath w category
                            questionQueue s))
  <-> url ∈ scrapedUrls (snd (question_run JSON_parse path_join downloadBasePath
                                category url (w category (questionNum s + i))
                                (questionNum s + i))).
Proof.
  induction questionQueue as [|u0 rest IH]; intros s i url Hnd Hnew Hi;
    [now rewrite lookup_nil in Hi|].
  apply NoDup_cons in Hnd as [Hu0 Hnd]. apply Forall_cons in Hnew as [Hnew0 Hnew].
  rewrite scrape_queue_cons.
  set (s1 := snd (scrape_next JSON_parse path_join downloadBasePath category u0
                    (w category (questionNum s)) s)).
  assert (Hs1 : scrapedUrls s1
                = if next_commits JSON_parse path_join downloadBasePath category u0
                       (w category (questionNum s)) (questionNum s) false
                  then {[u0]} ∪ scrapedUrls s else scrapedUrls s)
    by now apply scrapedUrls_next_new.
  assert (Hn1 : questionNum s1 = S (questionNum s))
    by (subst s1; now rewrite scrape_next_spec).
  destruct i as [|i]; cbn in Hi.
  - injection Hi as <-. rewrite Nat.add_0_r, question_run_commits.
    destruct (accounts_queue JSON_parse path_join downloadBasePath w category rest s1)
      as (evs & _ & _ & -> & _ & Hin).
    rewrite Forall_forall in Hin. rewrite Hs1. split.
    + intros H. apply elem_of_union in H as [H | H].
      * apply elem_of_list_to_set in H. destruct (Hin _ H) as [_ Hrest].
        exfalso. apply Hu0. now apply list_elem_of_In.
      * destruct (next_commits _ _ _ _ _ _ _ _); [reflexivity|contradiction].
    + intros ->. set_solver.
  - rewrite (IH s1 i url Hnd); [now rewrite Hn1, Nat.add_succ_comm| |exact Hi].
    apply Forall_forall. intros u Hu. rewrite Forall_forall in Hnew.
    rewrite Hs1. destruct (next_commits _ _ _ _ _ _ _ _); [|now apply Hnew].
    intros H. apply elem_of_union in H as [H | H]; [|now apply (Hnew u Hu)].
    apply elem_of_singleton in H. subst u. contradiction.
Qed.

Lemma filter_scraping_next_events category url sc n skip :
  List.filter is_scraping_line
    (next_events JSON_parse path_join downloadBasePath category url sc n skip)
  = [LogScraping category n].
Proof.
  unfold next_events. cbn [List.filter is_scraping_line]. f_equal.
  destruct skip; [reflexivity|]. cbv zeta.
  destruct (plan_sorted JSON_parse path_join downloadBasePath category url sc n)
    as [_ Hbounds].
  assert (Hplan : Forall (fun e => is_scraping_line e = false)
                    (fst (plan JSON_parse path_join downloadBasePath category url sc n))).
  { eapply Forall_impl; [exact Hbounds|]. intros e He. cbn beta in He.
    apply staged_not_scraping. lia. }
  apply filter_none. destruct (existsb failed _); [|exact Hplan].
  apply Forall_app. split; [now apply until_failure_Forall|].
  repeat constructor.
Qed.

Lemma scrape_queue_visits w category questionQueue : forall s,
  List.filter is_scraping_line
    (trace (snd (scrape_queue JSON_parse path_join downloadBasePath w category
                   questionQueue s)))
  = List.filter is_scraping_line (trace s)
    ++ visits_of_queue category (questionNum s) questionQueue.
Proof.
  induction questionQueue as [|url rest IH]; intros s.
  - cbn. now rewrite app_nil_r.
  - rewrite scrape_queue_cons, IH, scrape_next_spec. cbv zeta.
    cbn [snd trace questionNum visits_of_queue].
    rewrite List.filter_app, filter_scraping_next_events, <- app_assoc. reflexivity.
Qed.

Lemma scrape_categories_visits w questionsByCategory : forall s,
  List.filter is_scraping_line
    (trace (snd (scrape_categories JSON_parse path_join downloadBasePath w
                   questionsByCategory s)))
  = List.filter is_scraping_line (trace s) ++ visits_of_catalog questionsByCategory.
Proof.
  induction questionsByCategory as [|[category questionQueue] rest IH]; intros s.
  - cbn. now rewrite app_nil_r.
  - rewrite scrape_categories_cons, IH, scrape_queue_visits.
    cbn [set_questionNum snd trace questionNum visits_of_catalog].
    now rewrite <- app_assoc.
Qed.

End IsolationFacts.

(** X11: in a queue of distinct identifiers, none of them in the set yet,
    an identifier ends up in the set exactly when the [try] block of its own
    question, run alone on its own script at its own position, commits it:
    what the other questions of the queue do, fail or succeed, has no
    influence. *)
Theorem X11_failure_isolation (JSON_parse : string -> option json)
    (path_join : list string -> string) (downloadBasePath : string)
    (w : world) (category : string) (questionQueue : list string)
    (s : state) (i : nat) (url : string) :
  NoDup questionQueue ->
  Forall (fun u => u ∉ scrapedUrls s) questionQueue ->
  questionQueue !! i = Some url ->
  url ∈ scrapedUrls (snd (scrape_queue JSON_parse path_join downloadBasePath w category
                            questionQueue s))
  <-> url ∈ scrapedUrls (snd (question_run JSON_parse path_join downloadBasePath
                                category url (w category (questionNum s + i))
                                (questionNum s + i))).
Proof. apply scrape_queue_isolated. Qed.

Lemma X11_failure_isolation_witness :
  "u3" ∈ scrapedUrls
           (snd (scrape_queue JSON.parse join_with_slash "/out" second_question_fails
                   "Arrays" ["u1"; "u2"; "u3"] (start_state ∅ EmptyString))) /\
  "u2" ∉ scrapedUrls
           (snd (scrape_queue JSON.parse join_with_slash "/out" second_question_fails
                   "Arrays" ["u1"; "u2"; "u3"] (start_state ∅ EmptyString))).
Proof.
  assert (Hnd : NoDup ["u1"; "u2"; "u3"])
    by (refine (bool_decide_eq_true_1 _ _); vm_compute; reflexivity).
  assert (Hnew : Forall (fun u : string => u ∉ scrapedUrls (start_state ∅ EmptyString))
                   ["u1"; "u2"; "u3"])
    by (repeat constructor; apply not_elem_of_empty).
  split.
  - apply (X11_failure_isolation JSON.parse join_with_slash "/out" second_question_fails
             "Arrays" ["u1"; "u2"; "u3"] (start_state ∅ EmptyString) 2 "u3" Hnd Hnew
             eq_refl).
    refine (bool_decide_eq_true_1 _ _). vm_compute. reflexivity.
  - intros H.
    apply (X11_failure_isolation JSON.parse join_with_slash "/out" second_question_fails
             "Arrays" ["u1"; "u2"; "u3"] (start_state ∅ EmptyString) 1 "u2" Hnd Hnew
             eq_refl) in H.
    revert H. refine (bool_decide_eq_false_1 _ _). vm_compute. reflexivity.
Defined.

(** ** The whole run *)

Section WholeRun.

Variable JSON_parse : string -> option json.
Variable path_join : list string -> string.
Variable downloadBasePath : string.

Lemma scrape_next_after_events t category url sc s :
  snd (scrape_next JSON_parse path_join downloadBasePath category url sc (after_events t s))
  = after_events t (snd (scrape_next JSON_parse path_join downloadBasePath category url sc s)).
Proof.
  rewrite !scrape_next_spec. cbv zeta. unfold after_events.
  cbn [snd questionNum scrapedUrls urls_to_skip trace]. now rewrite app_assoc.
Qed.

Lemma scrape_queue_after_events t w category questionQueue : forall s,
  snd (scrape_queue JSON_parse path_join downloadBasePath w category questionQueue
         (after_events t s))
  = after_events t (snd (scrape_queue JSON_parse path_join downloadBasePath w category
                           questionQueue s)).
Proof.
  induction questionQueue as [|url rest IH]; intros s; [reflexivity|].
  rewrite !scrape_queue_cons. cbn [after_events questionNum].
  fold (after_events t s). rewrite scrape_next_after_events. apply IH.
Qed.

Lemma scrape_categories_after_events t w questionsByCategory : forall s,
  snd (scrape_categories JSON_parse path_join downloadBasePath w questionsByCategory
         (after_events t s))
  = after_events t (snd (scrape_categories JSON_parse path_join downloadBasePath w
                           questionsByCategory s)).
Proof.
  induction questionsByCategory as [|[category questionQueue] rest IH]; intros s;
    [reflexivity|].
  rewrite !scrape_categories_cons.
  change (snd (set_questionNum 1 (after_events t s)))
    with (after_events t (snd (set_questionNum 1 s))).
  rewrite scrape_queue_after_events. apply IH.
Qed.

(** Once the browser is connected, the skip-list loaded, the start page
    opened and the categories indexed, [run] does what its loops do on the
    indexed map, after the navigation to the start page, and resolves or
    rejects as [closeBrowser] does. *)
Lemma Scraper_run_loops env r w scraped file questionsByCategory :
  connect_ok env = true ->
  initializeScrapedUrls r = Done (scraped, file) ->
  start_ok env = true ->
  getQuestionsByCategory (links env) CATEGORIES BASE_URL = Done questionsByCategory ->
  Scraper_run JSON_parse path_join downloadBasePath env r w
  = (if close_ok env then Done tt else Throw,
     after_events [GoToUrl START_URL true]
       (snd (run JSON_parse path_join downloadBasePath r w questionsByCategory))).
Proof.
  intros Hconnect Hinit Hstart Hindex. unfold Scraper_run, run.
  rewrite Hconnect, Hinit, Hstart, Hindex.
  unfold call. unfold bind at 1. unfold bind at 1. unfold tell at 1. cbv iota beta.
  unfold ret at 1. cbv iota beta. unfold bind at 1. unfold lift at 1. cbv iota beta.
  unfold bind at 1.
  change {| questionNum := questionNum (start_state scraped file);
            scrapedUrls := scrapedUrls (start_state scraped file);
            urls_to_skip := urls_to_skip (start_state scraped file);
            trace := trace (start_state scraped file) ++ [GoToUrl START_URL true] |}
    with (after_events [GoToUrl START_URL true] (start_state scraped file)).
  pose proof (scrape_categories_done JSON_parse path_join downloadBasePath w
                questionsByCategory
                (after_events [GoToUrl START_URL true] (start_state scraped file)))
    as Hdone.
  pose proof (scrape_categories_after_events [GoToUrl START_URL true] w
                questionsByCategory (start_state scraped file)) as Hafter.
  destruct (scrape_categories JSON_parse path_join downloadBasePath w questionsByCategory
              (after_events [GoToUrl START_URL true] (start_state scraped file)))
    as [o s'].
  cbn [fst snd] in Hdone, Hafter. subst o s'.
  now destruct (close_ok env).
Qed.

(** When the connection, the navigation to the start page or the indexing
    rejects, [run] rejects before any question is looked at. *)
Lemma Scraper_run_rejected_start env r w :
  connect_ok env = false \/ start_ok env = false \/
  getQuestionsByCategory (links env) CATEGORIES BASE_URL = Throw ->
  fst (Scraper_run JSON_parse path_join downloadBasePath env r w) = Throw /\
  List.filter is_scraping_line
    (trace (snd (Scraper_run JSON_parse path_join downloadBasePath env r w))) = [].
Proof.
  unfold Scraper_run. intros H.
  destruct (connect_ok env); [|now split].
  destruct (initializeScrapedUrls r) as [[scraped file]| |] eqn:Hinit;
    [|now split|].
  - unfold call, bind, tell, ret, throw, lift. cbv iota beta.
    destruct (start_ok env); [|now split].
    destruct H as [H | [H | H]]; try discriminate. rewrite H. now split.
  - unfold initializeScrapedUrls in Hinit.
    destruct r as [data | [|] |]; try discriminate.
    now destruct (JS.is_empty data).
Qed.

End WholeRun.

(** X12: once the browser is connected, the skip-list loaded, the start
    page opened and the categories indexed, [run] resolves exactly when
    [closeBrowser] does, and its "Scraping" console lines are one per
    identifier of the indexed map, category after category in the order of
    the map and identifier after identifier in the order of the queue,
    numbered from 1 in each category, whatever is skipped or fails. *)
Theorem X12_every_identifier_visited (JSON_parse : string -> option json)
    (path_join : list string -> string) (downloadBasePath : string)
    (env : session) (r : read_result) (w : world)
    (scraped : gset string) (file : string)
    (questionsByCategory : list (string * list string)) :
  connect_ok env = true ->
  initializeScrapedUrls r = Done (scraped, file) ->
  start_ok env = true ->
  getQuestionsByCategory (links env) CATEGORIES BASE_URL = Done questionsByCategory ->
  fst (Scraper_run JSON_parse path_join downloadBasePath env r w)
  = (if close_ok env then Done tt else Throw) /\
  List.filter is_scraping_line
    (trace (snd (Scraper_run JSON_parse path_join downloadBasePath env r w)))
  = visits_of_catalog questionsByCategory.
Proof.
  intros Hconnect Hinit Hstart Hindex.
  rewrite (Scraper_run_loops JSON_parse path_join downloadBasePath env r w scraped file
             questionsByCategory Hconnect Hinit Hstart Hindex).
  split; [reflexivity|]. cbn [snd after_events trace app List.filter is_scraping_line].
  unfold run. rewrite Hinit. now rewrite scrape_categories_visits.
Qed.

Lemma X12_every_identifier_visited_witness :
  (fst (Scraper_run JSON.parse join_with_slash "/out" arrays_only_session
          (ReadENOENT true) second_question_fails) = Done tt /\
   List.filter is_scraping_line
     (trace (snd (Scraper_run JSON.parse join_with_slash "/out" arrays_only_session
                    (ReadENOENT true) second_question_fails)))
   = [LogScraping "Arrays" 1; LogScraping "Arrays" 2]) /\
  fst (Scraper_run JSON.parse join_with_slash "/out" close_rejected_session
         (ReadENOENT true) second_question_fails) = Throw.
Proof.
  assert (Hindex : getQuestionsByCategory arrays_only_page CATEGORIES BASE_URL
                   = Done (map (fun category =>
                                  (category,
                                   if String.eqb category "Arrays"
                                   then ["https://www.algoexpert.io/questions/two-number-sum";
                                         "https://www.algoexpert.io/questions/validate-subsequence"]
                                   else []))
                             CATEGORIES))
    by (vm_compute; reflexivity).
  split.
  - destruct (X12_every_identifier_visited JSON.parse join_with_slash "/out"
                arrays_only_session (ReadENOENT true) second_question_fails ∅ EmptyString
                _ eq_refl eq_refl eq_refl Hindex) as [Hresult Hvisits].
    split; [exact Hresult | exact Hvisits].
  - destruct (X12_every_identifier_visited JSON.parse join_with_slash "/out"
                close_rejected_session (ReadENOENT true) second_question_fails ∅ EmptyString
                _ eq_refl eq_refl eq_refl Hindex) as [Hresult _].
    exact Hresult.
Defined.

(** ** Indexing the categories *)

Lemma Map_set_fresh {V : Type} (k : string) (v : V) (m : list (string * V)) :
  ~ In k (map fst m) -> Map_set k v m = m ++ [(k, v)].
Proof.
  induction m as [|[k' v'] m IH]; [reflexivity|]. cbn [map fst In Map_set app].
  intros H. destruct (String.eqb k k') eqn:E.
  - apply String.eqb_eq in E. subst k'. exfalso. apply H. now left.
  - rewrite IH; [reflexivity|]. intros Hin. apply H. now right.
Qed.

Lemma index_categories_distinct (page : link_page) (baseUrl : string)
    (categories : list string) : forall questionsByCategory,
  NoDup categories ->
  Forall (fun c => ~ In c (map fst questionsByCategory)) categories ->
  Forall (fun c => is_Some (page (questionByCategory c))) categories ->
  index_categories page baseUrl categories questionsByCategory
  = Done (questionsByCategory
          ++ map (fun c => (c, map (question_url baseUrl)
                                 (default [] (page (questionByCategory c)))))
               categories).
Proof.
  induction categories as [|c rest IH]; intros acc Hnd Hfresh Hpage.
  - cbn. now rewrite app_nil_r.
  - apply NoDup_cons in Hnd as [Hc Hnd].
    apply Forall_cons in Hfresh as [Hfc Hfresh].
    apply Forall_cons in Hpage as [[questions Hq] Hpage].
    cbn [index_categories map]. rewrite Hq. cbn [default].
    rewrite (Map_set_fresh c _ acc Hfc), IH; [now rewrite <- app_assoc|exact Hnd| |exact Hpage].
    apply Forall_forall. intros c' Hc'. rewrite Forall_forall in Hfresh.
    rewrite map_app, in_app_iff. cbn [map fst In].
    intros [Hin | [<- | []]]; [now apply (Hfresh c' Hc')|].
    apply Hc. exact Hc'.
Qed.

Lemma index_categories_rejects (page : link_page) (baseUrl : string)
    (categories : list string) : forall questionsByCategory,
  Exists (fun c => page (questionByCategory c) = None) categories ->
  index_categories page baseUrl categories questionsByCategory = Throw.
Proof.
  induction categories as [|c rest IH]; intros acc Hex; [inversion Hex|].
  cbn [index_categories]. destruct (page (questionByCategory c)) eqn:E; [|reflexivity].
  apply IH. inversion Hex as [? ? Hc | ? ? Hrest]; subst; [congruence|exact Hrest].
Qed.

(** X13: over distinct categories whose queries all resolve,
    [getQuestionsByCategory] returns one entry per category, in the order of
    the categories, holding the base URL followed by each [href] in document
    order, duplicates and missing attributes included; when the query of one
    category is rejected the whole indexing is rejected.  The configured
    categories are distinct. *)
Theorem X13_getQuestionsByCategory (page : link_page) (categories : list string)
    (baseUrl : string) :
  (NoDup categories ->
   Forall (fun c => is_Some (page (questionByCategory c))) categories ->
   getQuestionsByCategory page categories baseUrl
   = Done (map (fun c => (c, map (question_url baseUrl)
                               (default [] (page (questionByCategory c)))))
             categories)) /\
  (Exists (fun c => page (questionByCategory c) = None) categories ->
   getQuestionsByCategory page categories baseUrl = Throw) /\
  NoDup CATEGORIES.
Proof.
  unfold getQuestionsByCategory. split; [|split].
  - intros Hnd Hpage.
    rewrite (index_categories_distinct page baseUrl categories [] Hnd); [reflexivity| |exact Hpage].
    apply Forall_forall. intros c _ [].
  - apply index_categories_rejects.
  - refine (bool_decide_eq_true_1 _ _). vm_compute. reflexivity.
Qed.

Lemma X13_getQuestionsByCategory_witness :
  getQuestionsByCategory arrays_only_page ["Arrays"; "Graphs"] BASE_URL
  = Done [("Arrays", ["https://www.algoexpert.io/questions/two-number-sum";
                      "https://www.algoexpert.io/questions/validate-subsequence"]);
          ("Graphs", [])].
Proof.
  destruct (X13_getQuestionsByCategory arrays_only_page ["Arrays"; "Graphs"] BASE_URL)
    as [Hdone _].
  rewrite Hdone; [vm_compute; reflexivity| |].
  - refine (bool_decide_eq_true_1 _ _). vm_compute. reflexivity.
  - repeat constructor; vm_compute; eauto.
Defined.

(** ** Resuming after a partial run *)

Section ResumeFacts.

Variable JSON_parse : string -> option json.
Variable path_join : list string -> string.
Variable downloadBasePath : string.






End ResumeFacts.


